(** * python-for-devops: the host liveness script and the log IP extraction

    A shallow embedding of
    - [Day-01/devops-task/Server_Health_Check.py] (function [check_server]), and
    - [Day-03-02-01-Task/task/Extracting_IP_Addresses_from_Logs.py]
      (the [re.findall] call on [log_data] and the [print] after it),
    with the properties the specification states about them.  Strings are
    strings of 8-bit characters (code points 0 to 255). *)

From Stdlib Require Import String Ascii List ZArith Lia Bool PeanoNat.
Import ListNotations.

Local Open Scope string_scope.

(* ================================================================= *)
(** ** The interpreter effects the scripts use *)

Module Script.

(** How a child process started by [os.system] ends.  [SpawnFailed] is the
    case where no child could be created at all. *)
Inductive Termination : Type :=
| Exited (code : N)
| Signaled (sig : positive)
| SpawnFailed.

(** The integer [os.system] hands back on a POSIX system: the wait status,
    that is the exit code in the high byte, or the signal number, or -1. *)
Definition wait_status (t : Termination) : Z :=
  match t with
  | Exited code => Z.shiftl (Z.of_N code) 8
  | Signaled sig => Z.pos sig
  | SpawnFailed => (-1)%Z
  end.

(** The part of the outside world a script can touch: what the system shell
    would answer to a command line in the present state of the network, the
    command lines run so far, and the lines written to standard output. *)
Record World : Type := mkWorld {
  shell : string -> Termination;
  shell_log : list string;
  stdout : list string
}.

(** What a call can raise; [ValueError] is the one the scripts can meet. *)
Inductive Exn : Type :=
| ValueError (msg : string).

(** How a computation ends: with a value, or with an exception on its way
    up. *)
Inductive Result (A : Type) : Type :=
| Ok (a : A)
| Raised (e : Exn).

Arguments Ok {A} a.
Arguments Raised {A} e.

(** A script computation threads the world; an exception ends it. *)
Definition Script (A : Type) : Type := World -> Result A * World.

Definition ret {A : Type} (a : A) : Script A := fun w => (Ok a, w).

Definition bind {A B : Type} (m : Script A) (f : A -> Script B) : Script B :=
  fun w => match m w with
           | (Ok a, w') => f a w'
           | (Raised e, w') => (Raised e, w')
           end.

Definition exec {A : Type} (m : Script A) (w : World) : World := snd (m w).

(** The character of code 0. *)
Definition nul : ascii := Ascii.zero.

Definition has_nul (s : string) : bool :=
  existsb (Ascii.eqb nul) (list_ascii_of_string s).

(** [os.system(cmd)]: a command with a NUL character in it is refused with
    [ValueError] before any shell is started; otherwise the shell runs
    [cmd] and the call returns its wait status. *)
Definition os_system (cmd : string) : Script Z :=
  fun w => if has_nul cmd
           then (Raised (ValueError "embedded null byte"), w)
           else (Ok (wait_status (shell w cmd)),
                 mkWorld (shell w) (shell_log w ++ [cmd]) (stdout w)).

(** [print(s)]: one more line on standard output, which is taken to
    accept every character. *)
Definition print (s : string) : Script unit :=
  fun w => (Ok tt, mkWorld (shell w) (shell_log w) (stdout w ++ [s])).

End Script.

Import Script.

Notation "x <- m ;; k" := (bind m (fun x => k))
  (at level 61, m at next level, right associativity).
Notation "m ;;; k" := (bind m (fun _ => k))
  (at level 61, right associativity).

(* ================================================================= *)
(** ** Server_Health_Check.py *)

(** [f"ping -c 1 {host} > /dev/null 2>&1"] *)
Definition ping_command (host : string) : string :=
  "ping -c 1 " ++ host ++ " > /dev/null 2>&1".

(** [def check_server(host)] *)
Definition check_server (host : string) : Script unit :=
  response <- os_system (ping_command host) ;;
  if (response =? 0)%Z
  then print (host ++ " is UP")
  else print (host ++ " is DOWN").

(** The line at the bottom of the file: [check_server("google.com")]. *)
Definition health_check_main : Script unit := check_server "google.com".

(** *** The outcome classes of the specification *)

(** The specification's [ProbeResult]. *)
Inductive ProbeResult : Type :=
| Reachable
| Unreachable
| Error (reason : string).

(** The line the script prints for an outcome class: "<host> is UP" stands
    for [Reachable], "<host> is DOWN" for [Unreachable]; the script has no
    line for an [Error]. *)
Definition status_line (host : string) (r : ProbeResult) : option string :=
  match r with
  | Reachable => Some (host ++ " is UP")
  | Unreachable => Some (host ++ " is DOWN")
  | Error _ => None
  end.

(** [reports w host r]: run in world [w], [check_server host] writes exactly
    the line of outcome [r], and nothing else, to standard output. *)
Definition reports (w : World) (host : string) (r : ProbeResult) : Prop :=
  exists line, status_line host r = Some line /\
               stdout (exec (check_server host) w) = (stdout w ++ [line])%list.


(** Worlds used as concrete inputs. *)

(** Every ping gets its answer. *)
Definition all_up : World := mkWorld (fun _ => Exited 0) [] [].

Definition no_reply : World := mkWorld (fun _ => Exited 1) [] [].

(** Only the loopback address answers. *)
Definition loopback_only : World :=
  mkWorld (fun cmd => if cmd =? ping_command "127.0.0.1"
                      then Exited 0 else Exited 1) [] [].

(* ================================================================= *)
(** ** The pattern-match utility: Python's [re], as far as the script uses it *)

Module Re.

Local Open Scope char_scope.
Local Open Scope list_scope.

(** Patterns after compilation.  A non-capturing group [(?:r)] is [r]
    itself; a capturing group carries its number, counted by opening
    parenthesis from 1. *)
Inductive regex : Type :=
| Empty
| Chr (c : ascii)
| Dot
| Digit
| Seq (r1 r2 : regex)
| Alt (r1 r2 : regex)
| Group (n : nat) (r : regex)
| Repeat (r : regex) (lo hi : nat).

(** *** Compiling a pattern string *)

Definition is_digit (c : ascii) : bool :=
  (48 <=? nat_of_ascii c)%nat && (nat_of_ascii c <=? 57)%nat.

Definition is_alpha (c : ascii) : bool :=
  let n := nat_of_ascii c in
  ((65 <=? n)%nat && (n <=? 90)%nat) || ((97 <=? n)%nat && (n <=? 122)%nat).

Definition digit_value (c : ascii) : nat := nat_of_ascii c - 48.

(** A decimal number at the head of [s]: its value and what follows it. *)
Fixpoint parse_digits (s : list ascii) (acc : nat) : nat * list ascii :=
  match s with
  | c :: tl => if is_digit c then parse_digits tl (10 * acc + digit_value c)
               else (acc, s)
  | [] => (acc, s)
  end.

Definition parse_number (s : list ascii) : option (nat * list ascii) :=
  match s with
  | c :: _ => if is_digit c then Some (parse_digits s 0) else None
  | [] => None
  end.

(** The quantifier, if any, that follows the atom [a]:  [?], [{m}] or
    [{m,n}], all greedy.  The unbounded ones ([*], [+], [{m,}]) are outside
    this fragment. *)
Definition parse_quantifier (a : regex) (s : list ascii)
  : option (regex * list ascii) :=
  match s with
  | "?" :: tl => Some (Repeat a 0 1, tl)
  | "*" :: _ => None
  | "+" :: _ => None
  | "{" :: tl =>
      match parse_number tl with
      | Some (lo, "}" :: tl') => Some (Repeat a lo lo, tl')
      | Some (lo, "," :: tl') =>
          match parse_number tl' with
          | Some (hi, "}" :: tl'') =>
              if (lo <=? hi)%nat then Some (Repeat a lo hi, tl'') else None
          | _ => None
          end
      | _ => None
      end
  | _ => Some (a, s)
  end.

Definition mk_seq (a r : regex) : regex :=
  match r with
  | Empty => a
  | _ => Seq a r
  end.

(** Recursive descent over the pattern; [n] counts the capturing groups
    opened so far.  [None] is a pattern outside the fragment (or one Python
    rejects). *)
Fixpoint parse_alt (fuel : nat) (s : list ascii) (n : nat) {struct fuel}
  : option (regex * list ascii * nat) :=
  match fuel with
  | O => None
  | S fuel' =>
      match parse_seq fuel' s n with
      | Some (r1, "|" :: s1, n1) =>
          match parse_alt fuel' s1 n1 with
          | Some (r2, s2, n2) => Some (Alt r1 r2, s2, n2)
          | None => None
          end
      | other => other
      end
  end

with parse_seq (fuel : nat) (s : list ascii) (n : nat) {struct fuel}
  : option (regex * list ascii * nat) :=
  match fuel with
  | O => None
  | S fuel' =>
      match s with
      | [] => Some (Empty, s, n)
      | "|" :: _ => Some (Empty, s, n)
      | ")" :: _ => Some (Empty, s, n)
      | _ =>
          match parse_atom fuel' s n with
          | Some (a, s1, n1) =>
              match parse_quantifier a s1 with
              | Some (q, s2) =>
                  match parse_seq fuel' s2 n1 with
                  | Some (r, s3, n3) => Some (mk_seq q r, s3, n3)
                  | None => None
                  end
              | None => None
              end
          | None => None
          end
      end
  end

with parse_atom (fuel : nat) (s : list ascii) (n : nat) {struct fuel}
  : option (regex * list ascii * nat) :=
  match fuel with
  | O => None
  | S fuel' =>
      match s with
      | "(" :: "?" :: ":" :: s1 =>
          match parse_alt fuel' s1 n with
          | Some (r, ")" :: s2, n2) => Some (r, s2, n2)
          | _ => None
          end
      | "(" :: "?" :: _ => None
      | "(" :: s1 =>
          match parse_alt fuel' s1 (S n) with
          | Some (r, ")" :: s2, n2) => Some (Group (S n) r, s2, n2)
          | _ => None
          end
      | "\" :: "d" :: s1 => Some (Digit, s1, n)
      | "\" :: c :: s1 =>
          if is_digit c || is_alpha c then None else Some (Chr c, s1, n)
      | "." :: s1 => Some (Dot, s1, n)
      | c :: s1 =>
          if existsb (Ascii.eqb c)
               ["\"; "["; "]"; "{"; "}"; "*"; "+"; "?"; "^"; "$"; ")"; "|"]
          then None
          else Some (Chr c, s1, n)
      | [] => None
      end
  end.

(** [re.compile]: the compiled pattern and its number of capturing groups. *)
Definition compile (pattern : string) : option (regex * nat) :=
  let s := list_ascii_of_string pattern in
  match parse_alt (4 * S (length s)) s 0 with
  | Some (r, [], groups) => Some (r, groups)
  | _ => None
  end.

(** *** Matching: backtracking with captures *)

(** What is left of the text, and the text each group matched last. *)
Record mstate : Type := mkState {
  rest : list ascii;
  caps : list (nat * list ascii)
}.

(** The characters between two positions of the same text, given as the
    suffixes that start there. *)
Definition consumed (before after : list ascii) : list ascii :=
  firstn (length before - length after) before.

Definition newline : ascii := ascii_of_nat 10.

(** One character of the text against a character test. *)
Definition step (p : ascii -> bool) (st : mstate)
                (k : mstate -> option mstate) : option mstate :=
  match rest st with
  | c :: tl => if p c then k (mkState tl (caps st)) else None
  | [] => None
  end.

(** [exec r st k]: match [r] at the head of [rest st], then go on with [k];
    the first way through that [k] accepts is the answer.  Alternatives are
    tried left to right, repetitions longest first; a group keeps the text
    of its last turn.  (CPython also ends a repetition whose body has just
    matched the empty string; no repeated body of this file can do that.) *)
Fixpoint exec (r : regex) (st : mstate) (k : mstate -> option mstate)
  {struct r} : option mstate :=
  match r with
  | Empty => k st
  | Chr c => step (Ascii.eqb c) st k
  | Dot => step (fun x => negb (Ascii.eqb x newline)) st k
  | Digit => step is_digit st k
  | Seq r1 r2 => exec r1 st (fun st1 => exec r2 st1 k)
  | Alt r1 r2 =>
      match exec r1 st k with
      | Some res => Some res
      | None => exec r2 st k
      end
  | Group n r1 =>
      exec r1 st (fun st1 =>
        k (mkState (rest st1)
                   ((n, consumed (rest st) (rest st1)) :: caps st1)))
  | Repeat r1 lo hi =>
      (fix rep (lo hi : nat) (st : mstate) (k : mstate -> option mstate)
           {struct hi} : option mstate :=
         match hi with
         | O => match lo with O => k st | S _ => None end
         | S hi' =>
             match lo with
             | S lo' => exec r1 st (fun st1 => rep lo' hi' st1 k)
             | O =>
                 match exec r1 st (fun st1 => rep O hi' st1 k) with
                 | Some res => Some res
                 | None => k st
                 end
             end
         end) lo hi st k
  end.

(** One attempt at the position where [s] starts.  With [must_advance] an
    empty match is not accepted there. *)
Definition match_at (r : regex) (s : list ascii) (must_advance : bool)
  : option mstate :=
  exec r (mkState s [])
       (fun st => if must_advance && (length (rest st) =? length s)%nat
                  then None else Some st).

(** The leftmost position from [s] on where the pattern matches: the suffix
    that starts there and the final state.  [must_advance] only binds the
    first position tried. *)
Fixpoint search (r : regex) (s : list ascii) (must_advance : bool)
  : option (list ascii * mstate) :=
  match match_at r s must_advance with
  | Some st => Some (s, st)
  | None =>
      match s with
      | [] => None
      | _ :: tl => search r tl false
      end
  end.

(** *** [findall] *)

(** An element of the list [findall] returns: a string, or a tuple of
    strings when the pattern has several groups. *)
Inductive item : Type :=
| Str (s : string)
| Tuple (l : list string).

Fixpoint lookup (n : nat) (l : list (nat * list ascii)) : option (list ascii) :=
  match l with
  | [] => None
  | (i, t) :: tl => if (i =? n)%nat then Some t else lookup n tl
  end.

(** Group [n] of a match, the empty string if it took no part. *)
Definition group (st : mstate) (n : nat) : string :=
  match lookup n (caps st) with
  | Some t => string_of_list_ascii t
  | None => EmptyString
  end.

(** Group 0: the whole match, which began where [start] begins. *)
Definition matched_text (start : list ascii) (st : mstate) : string :=
  string_of_list_ascii (consumed start (rest st)).

(** What [findall] keeps of a match: the whole match when the pattern has
    no group, the group when it has one, the tuple of all groups else. *)
Definition findall_item (groups : nat) (start : list ascii) (st : mstate)
  : item :=
  match groups with
  | 0 => Str (matched_text start st)
  | 1 => Str (group st 1)
  | _ => Tuple (map (group st) (seq 1 groups))
  end.

(** The loop of [findall]: search from the end of the previous match, and
    ask for progress after an empty one.  [None]: out of fuel. *)
Fixpoint findall_loop (fuel : nat) (r : regex) (groups : nat)
                      (s : list ascii) (must_advance : bool)
  : option (list item) :=
  match fuel with
  | O => None
  | S fuel' =>
      match search r s must_advance with
      | None => Some []
      | Some (start, st) =>
          match findall_loop fuel' r groups (rest st)
                             (length (rest st) =? length start)%nat with
          | Some items => Some (findall_item groups start st :: items)
          | None => None
          end
      end
  end.

Definition findall_compiled (r : regex) (groups : nat) (text : string)
  : option (list item) :=
  let s := list_ascii_of_string text in
  findall_loop (2 * length s + 2) r groups s false.

(** [re.findall(pattern, text)]; [None] for a pattern outside the fragment. *)
Definition findall (pattern text : string) : option (list item) :=
  match compile pattern with
  | Some (r, groups) => findall_compiled r groups text
  | None => None
  end.

End Re.

(* ================================================================= *)
(** ** The system shell, as far as the command line of the script goes *)

Module Sh.

Local Open Scope char_scope.
Local Open Scope list_scope.

(** What the script writes after the command: output and errors go to
    [/dev/null]. *)
Definition redirection : list ascii :=
  list_ascii_of_string " > /dev/null 2>&1".

Fixpoint strip_prefix (p s : list ascii) : option (list ascii) :=
  match p, s with
  | [], _ => Some s
  | a :: p', b :: s' => if Ascii.eqb a b then strip_prefix p' s' else None
  | _ :: _, [] => None
  end.

Definition strip_suffix (p s : list ascii) : option (list ascii) :=
  option_map (@rev ascii) (strip_prefix (rev p) (rev s)).

(** The characters of a word that mean nothing to the shell. *)
Definition word_char (c : ascii) : bool :=
  Re.is_digit c || Re.is_alpha c ||
  existsb (Ascii.eqb c) ["."; "-"; "_"; "/"; ":"].

(** The pieces of [s] between the separators. *)
Fixpoint split_on (sep : ascii) (s : list ascii) : list (list ascii) :=
  match s with
  | [] => [[]]
  | c :: tl =>
      if Ascii.eqb c sep then [] :: split_on sep tl
      else match split_on sep tl with
           | w :: ws => (c :: w) :: ws
           | [] => [[c]]
           end
  end.

(** The words of a simple command: what stands between blanks. *)
Definition words (s : list ascii) : list (list ascii) :=
  filter (fun w => negb (length w =? 0)%nat) (split_on " " s).

(** The commands this fragment knows: the [ping] program with its
    arguments, and the builtins [true] and [false]. *)
Inductive command : Type :=
| Ping (args : list string)
| True
| False.

Definition command_of (ws : list (list ascii)) : option command :=
  match ws with
  | [] => None
  | name :: args =>
      let name := string_of_list_ascii name in
      if String.eqb name "ping"
      then Some (Ping (map string_of_list_ascii args))
      else if String.eqb name "true" then Some True
      else if String.eqb name "false" then Some False
      else None
  end.

Fixpoint commands (segments : list (list ascii)) : option (list command) :=
  match segments with
  | [] => Some []
  | seg :: tl =>
      match command_of (words seg), commands tl with
      | Some c, Some cs => Some (c :: cs)
      | _, _ => None
      end
  end.

(** A command line of the fragment: simple commands with [;] between them,
    made of plain words and blanks, and the redirection of the script at
    the end.  [None]: any other command line, about which nothing is said
    here.  The shell is taken to find the ping program under the name
    [ping] and to be able to open [/dev/null]. *)
Definition parse (cmdline : string) : option (list command) :=
  match strip_suffix redirection (list_ascii_of_string cmdline) with
  | Some body =>
      if forallb (fun c => word_char c || Ascii.eqb c " " || Ascii.eqb c ";")
                 body
      then commands (split_on ";" body)
      else None
  | None => None
  end.

(** The exit code of one command; [ping] says how the ping program leaves
    for given arguments, in the present state of the network. *)
Definition exit_code (ping : list string -> N) (c : command) : N :=
  match c with
  | Ping args => ping args
  | True => 0
  | False => 1
  end.

(** [sh -c cmdline]: the commands run one after the other, each of them,
    and the shell leaves with the exit code of the last. *)
Definition run (ping : list string -> N) (cmdline : string)
  : option Termination :=
  match parse cmdline with
  | Some cs =>
      match rev cs with
      | c :: _ => Some (Exited (exit_code ping c))
      | [] => None
      end
  | None => None
  end.


End Sh.

(** The shell of world [w] is [sh], and [ping] is its ping program. *)
Definition runs_sh (ping : list string -> N) (w : World) : Prop :=
  forall cmd t, Sh.run ping cmd = Some t -> shell w cmd = t.

(** A fresh world whose shell is [sh] with the ping program [ping];
    [other] answers for the command lines outside the fragment. *)
Definition sh_world (ping : list string -> N) (other : string -> Termination)
  : World :=
  mkWorld (fun cmd => match Sh.run ping cmd with
                      | Some t => t
                      | None => other cmd
                      end) [] [].

(** A host that is one plain word. *)
Definition plain_host (host : string) : bool :=
  let l := list_ascii_of_string host in
  negb (length l =? 0)%nat && forallb Sh.word_char l.

(** A host with a NUL character in the middle. *)
Definition nul_host : string :=
  String "a" (String nul (String "b" EmptyString)).

(** Networks: no ping gets a reply (exit code 1), every ping gets one. *)
Definition nobody_answers : list string -> N := fun _ => 1%N.
Definition everybody_answers : list string -> N := fun _ => 0%N.


(* ================================================================= *)
(** ** Extracting_IP_Addresses_from_Logs.py *)

Definition nl : string := String Re.newline EmptyString.

(** The triple-quoted [log_data]: it opens and closes with a line break. *)
Definition log_data : string :=
  nl ++ "User logged in from 192.168.1.10" ++
  nl ++ "Failed login attempt from 203.0.113.5" ++ nl.

(** [ip_pattern = r"(\d{1,3}\.){3}\d{1,3}"] *)
Definition ip_pattern : string := "(\d{1,3}\.){3}\d{1,3}".

(** [ip_addresses = re.findall(ip_pattern, log_data)] *)
Definition ip_addresses : option (list Re.item) :=
  Re.findall ip_pattern log_data.

(** The pattern as [re.compile] builds it. *)
Definition ip_regex : Re.regex :=
  Re.Seq
    (Re.Repeat (Re.Group 1 (Re.Seq (Re.Repeat Re.Digit 1 3) (Re.Chr ".")))
               3 3)
    (Re.Repeat Re.Digit 1 3).


(** *** Dotted quads and IPv4 addresses *)

(** A run of one to three decimal digits. *)
Definition digit_run (ds : list ascii) : bool :=
  forallb Re.is_digit ds && (1 <=? length ds)%nat && (length ds <=? 3)%nat.

(** Four runs with dots between them. *)
Definition dotted (d1 d2 d3 d4 : list ascii) : list ascii :=
  (d1 ++ "."%char :: d2 ++ "."%char :: d3 ++ "."%char :: d4)%list.

(** The number a run of digits writes. *)
Definition octet_value (ds : list ascii) : nat :=
  fold_left (fun acc c => 10 * acc + Re.digit_value c) ds 0.

(** Four runs make an IPv4 address when none writes a number above 255. *)
Definition valid_ipv4 (d1 d2 d3 d4 : list ascii) : bool :=
  forallb (fun d => digit_run d && (octet_value d <=? 255)%nat)
          [d1; d2; d3; d4].

Definition starts_with_digit (s : list ascii) : bool :=
  match s with
  | c :: _ => Re.is_digit c
  | [] => false
  end.

(** The text of the example: ["999.999.999.999"]. *)
Definition nines : list ascii := list_ascii_of_string "999".

(** *** What [findall] keeps of a text *)

(** No decimal digit anywhere. *)
Definition digit_free (s : list ascii) : bool :=
  forallb (fun c => negb (Re.is_digit c)) s.

(** The text [s] begins with a dotted quad of digit runs. *)
Definition quad_at (s : list ascii) : Prop :=
  exists d1 d2 d3 d4 tl,
    digit_run d1 = true /\ digit_run d2 = true /\
    digit_run d3 = true /\ digit_run d4 = true /\
    s = (dotted d1 d2 d3 d4 ++ tl)%list.

(** [extraction s items]: [items] is what reading [s] from left to right
    gives.  Where no quad begins anywhere in [s], nothing.  Otherwise [s]
    is a gap in which no quad begins, then the first quad, its last run as
    long as it can be, then the rest; the quad gives the first element,
    its third run with the dot that follows, and the rest of the text the
    other elements. *)
Inductive extraction : list ascii -> list Re.item -> Prop :=
| extraction_done (s : list ascii) :
    (forall a b, s = a ++ b -> ~ quad_at b)%list ->
    extraction s []
| extraction_quad (gap d1 d2 d3 d4 s : list ascii) (items : list Re.item) :
    digit_run d1 = true -> digit_run d2 = true ->
    digit_run d3 = true -> digit_run d4 = true ->
    length d4 = 3 \/ starts_with_digit s = false ->
    (forall a b, gap = a ++ b -> b <> [] ->
                 ~ quad_at (b ++ dotted d1 d2 d3 d4 ++ s))%list ->
    extraction s items ->
    extraction (gap ++ dotted d1 d2 d3 d4 ++ s)%list
               (Re.Str (string_of_list_ascii (d3 ++ ["."%char])) :: items).

(* ================================================================= *)
(** ** The last line of the script: [print("Extracted IPs:", ip_addresses)] *)

Module Py.

Local Open Scope char_scope.
Local Open Scope list_scope.

Definition single_quote : ascii := "'".
Definition double_quote : ascii := ascii_of_nat 34.
Definition backslash : ascii := "\".

Definition hex_digit (n : nat) : ascii :=
  nth n (list_ascii_of_string "0123456789abcdef") "0".

(** The 8-bit characters [repr] shows as they are. *)
Definition printable (c : ascii) : bool :=
  let n := nat_of_ascii c in
  ((32 <=? n)%nat && (n <? 127)%nat) ||
  ((161 <=? n)%nat && negb (n =? 173)%nat).

(** One character inside the quotes of [repr]. *)
Definition escape (quote c : ascii) : list ascii :=
  if Ascii.eqb c quote || Ascii.eqb c backslash then [backslash; c]
  else if Ascii.eqb c (ascii_of_nat 9) then [backslash; "t"]
  else if Ascii.eqb c (ascii_of_nat 10) then [backslash; "n"]
  else if Ascii.eqb c (ascii_of_nat 13) then [backslash; "r"]
  else if printable c then [c]
  else [backslash; "x"; hex_digit (nat_of_ascii c / 16);
        hex_digit (nat_of_ascii c mod 16)].

(** [repr] of a [str]: single quotes, unless the string has a single quote
    and no double quote. *)
Definition repr_str (s : string) : string :=
  let l := list_ascii_of_string s in
  let quote :=
    if existsb (Ascii.eqb single_quote) l
       && negb (existsb (Ascii.eqb double_quote) l)
    then double_quote else single_quote in
  string_of_list_ascii (quote :: flat_map (escape quote) l ++ [quote]).

(** [", ".join(parts)] *)
Fixpoint join (parts : list string) : string :=
  match parts with
  | [] => EmptyString
  | [p] => p
  | p :: tl => (p ++ ", " ++ join tl)%string
  end.

(** [repr] of an element of the list: a string, or a tuple of strings. *)
Definition repr_item (i : Re.item) : string :=
  match i with
  | Re.Str s => repr_str s
  | Re.Tuple [s] => ("(" ++ repr_str s ++ ",)")%string
  | Re.Tuple l => ("(" ++ join (map repr_str l) ++ ")")%string
  end.

(** [repr] of the list. *)
Definition repr_list (items : list Re.item) : string :=
  ("[" ++ join (map repr_item items) ++ "]")%string.

End Py.

(** A character [repr] leaves alone between single quotes. *)
Definition plain (c : ascii) : Prop :=
  Ascii.eqb Py.single_quote c = false /\ Py.escape Py.single_quote c = [c]%list.

(** The element a run stands for, as [print] shows it. *)
Definition shown (ds : list ascii) : string :=
  ("'" ++ string_of_list_ascii ds ++ ".'")%string.

(** The script from [re.findall] on, for a given [log_data]: the list is
    printed after the label, a space between the two. *)
Definition extract_ips (log_data : string) : Script unit :=
  match Re.findall ip_pattern log_data with
  | Some ip_addresses =>
      print ("Extracted IPs:" ++ " " ++ Py.repr_list ip_addresses)
  | None => ret tt
  end.

(** The script as it stands. *)
Definition extract_ips_main : Script unit := extract_ips log_data.

(* ================================================================= *)
(** ** Properties of [check_server] *)

Section CheckServer.

Local Open Scope list_scope.

(** [os.system] returns 0 exactly for a child that left with exit code 0. *)
Lemma wait_status_zero (t : Termination) :
  wait_status t = 0%Z <-> t = Exited 0.
Proof.
  destruct t as [code | sig |]; unfold wait_status; split; intro H;
    try discriminate.
  - apply Z.shiftl_eq_0_iff in H; [ | lia ].
    f_equal. lia.
  - injection H as ->. reflexivity.
Qed.

Lemma wait_status_eqb (t : Termination) :
  (wait_status t =? 0)%Z = match t with Exited 0 => true | _ => false end.
Proof.
  destruct (Z.eqb_spec (wait_status t) 0) as [E | E].
  - apply wait_status_zero in E. subst t. reflexivity.
  - destruct t as [[ | p] | sig | ]; try reflexivity.
    exfalso. apply E. reflexivity.
Qed.

Lemma list_ascii_of_string_app (a b : string) :
  list_ascii_of_string (a ++ b)
  = list_ascii_of_string a ++ list_ascii_of_string b.
Proof.
  induction a as [ | x a IH]; simpl; [ reflexivity | rewrite IH; reflexivity ].
Qed.

(** The fixed parts of the command have no NUL: only the host can bring
    one. *)
Lemma has_nul_ping_command (host : string) :
  has_nul (ping_command host) = has_nul host.
Proof.
  unfold has_nul, ping_command.
  rewrite !list_ascii_of_string_app, !existsb_app.
  simpl. apply orb_false_r.
Qed.

(** One call, from the world before to the result and the world after. *)
Lemma check_server_run (host : string) (w : World) :
  check_server host w =
  if has_nul host
  then (Raised (ValueError "embedded null byte"), w)
  else (Ok tt,
        mkWorld (shell w)
                (shell_log w ++ [ping_command host])
                (stdout w ++ [match shell w (ping_command host) with
                              | Exited 0 => host ++ " is UP"
                              | _ => host ++ " is DOWN"
                              end]%string)).
Proof.
  unfold check_server, bind, os_system.
  rewrite has_nul_ping_command.
  destruct (has_nul host); [ reflexivity | ].
  rewrite wait_status_eqb.
  destruct (shell w (ping_command host)) as [[ | p] | sig | ]; reflexivity.
Qed.

Lemma append_inj_l (a b c : string) : (a ++ b = a ++ c)%string -> b = c.
Proof.
  induction a as [ | x a IH]; simpl; intro H.
  - exact H.
  - injection H as H. auto.
Qed.

Lemma up_is_not_down (host : string) :
  (host ++ " is UP")%string <> (host ++ " is DOWN")%string.
Proof. intro H. apply append_inj_l in H. discriminate. Qed.

Lemma not_longer_by_one {A : Type} (l : list A) (x : A) : l <> l ++ [x].
Proof.
  intro H. apply (f_equal (@length A)) in H.
  rewrite length_app in H. simpl in H. lia.
Qed.

Lemma reports_iff (w : World) (host : string) (r : ProbeResult) :
  reports w host r <->
  has_nul host = false /\
  r = match shell w (ping_command host) with
      | Exited 0 => Reachable
      | _ => Unreachable
      end.
Proof.
  unfold reports, exec. rewrite check_server_run.
  destruct (has_nul host); simpl snd; simpl stdout; split.
  - intros [line [_ Hout]]. exfalso. exact (not_longer_by_one _ _ Hout).
  - intros [H _]. discriminate.
  - intros [line [Hline Hout]]. split; [ reflexivity | ].
    apply app_inv_head in Hout. injection Hout as Hout. subst line.
    destruct r as [ | | reason]; simpl in Hline; try discriminate;
      injection Hline as Hline;
      destruct (shell w (ping_command host)) as [[ | p] | sig | ];
      try reflexivity;
      solve [ exfalso; apply (up_is_not_down host); congruence ].
  - intros [_ ->].
    destruct (shell w (ping_command host)) as [[ | p] | sig | ];
      eexists; split; reflexivity.
Qed.

(** *** The command line of a plain host, as the shell reads it *)

Lemma strip_prefix_app (p s : list ascii) :
  Sh.strip_prefix p (p ++ s) = Some s.
Proof.
  induction p as [ | a p IH]; simpl; [ reflexivity | ].
  rewrite Ascii.eqb_refl. exact IH.
Qed.

Lemma strip_suffix_app (p s : list ascii) :
  Sh.strip_suffix p (s ++ p) = Some s.
Proof.
  unfold Sh.strip_suffix. rewrite rev_app_distr, strip_prefix_app.
  simpl. rewrite rev_involutive. reflexivity.
Qed.

Lemma word_char_plain (c : ascii) :
  Sh.word_char c = true ->
  Ascii.eqb c " " = false /\ Ascii.eqb c ";" = false /\
  Ascii.eqb nul c = false.
Proof.
  destruct c as [b0 b1 b2 b3 b4 b5 b6 b7].
  destruct b0, b1, b2, b3, b4, b5, b6, b7; intro H;
    try (vm_compute in H; discriminate H);
    repeat split; vm_compute; reflexivity.
Qed.

Lemma split_on_not_nil (sep : ascii) (s : list ascii) :
  Sh.split_on sep s <> [].
Proof.
  induction s as [ | c s IH]; simpl; [ discriminate | ].
  destruct (Ascii.eqb c sep); [ discriminate | ].
  destruct (Sh.split_on sep s); discriminate.
Qed.

(** A piece without the separator, up to the first separator or the end. *)
Lemma split_on_piece (sep : ascii) (a b : list ascii) :
  forallb (fun c => negb (Ascii.eqb c sep)) a = true ->
  Sh.split_on sep (a ++ sep :: b) = a :: Sh.split_on sep b.
Proof.
  induction a as [ | c a IH]; simpl; intro H.
  - rewrite Ascii.eqb_refl. reflexivity.
  - apply andb_prop in H as [Hc H].
    destruct (Ascii.eqb c sep); [ discriminate | ].
    rewrite (IH H). reflexivity.
Qed.

Lemma split_on_whole (sep : ascii) (a : list ascii) :
  forallb (fun c => negb (Ascii.eqb c sep)) a = true ->
  Sh.split_on sep a = [a].
Proof.
  induction a as [ | c a IH]; simpl; intro H; [ reflexivity | ].
  apply andb_prop in H as [Hc H].
  destruct (Ascii.eqb c sep); [ discriminate | ].
  rewrite (IH H). reflexivity.
Qed.

Lemma plain_host_inv (host : string) :
  plain_host host = true ->
  list_ascii_of_string host <> [] /\
  Forall (fun c => Sh.word_char c = true) (list_ascii_of_string host).
Proof.
  unfold plain_host. intro H. apply andb_prop in H as [Hn Hw]. split.
  - intro E. rewrite E in Hn. discriminate.
  - apply Forall_forall. apply forallb_forall. exact Hw.
Qed.

Lemma plain_host_no_nul (host : string) :
  plain_host host = true -> has_nul host = false.
Proof.
  intro H. apply plain_host_inv in H as [_ H]. unfold has_nul.
  induction H as [ | c l Hc _ IH]; cbn [existsb]; [ reflexivity | ].
  apply word_char_plain in Hc as [_ [_ Hc]]. rewrite Hc. exact IH.
Qed.

(** For a plain host the command line is one command: [ping -c 1 host]. *)
Lemma parse_plain_host (host : string) :
  plain_host host = true ->
  Sh.parse (ping_command host) = Some [Sh.Ping ["-c"; "1"; host]%string].
Proof.
  intro Hp. apply plain_host_inv in Hp as [Hne Hw].
  set (h := list_ascii_of_string host) in *.
  assert (Hs : forall sep, sep = " "%char \/ sep = ";"%char ->
                 forallb (fun c => negb (Ascii.eqb c sep)) h = true).
  { intros sep Hsep. apply forallb_forall. intros c Hc.
    rewrite Forall_forall in Hw.
    destruct (word_char_plain c (Hw c Hc)) as [H1 [H2 _]].
    destruct Hsep as [-> | ->]; [ rewrite H1 | rewrite H2 ]; reflexivity. }
  assert (Hbody : forallb (fun c => Sh.word_char c || Ascii.eqb c " "
                                    || Ascii.eqb c ";")
                          (list_ascii_of_string "ping -c 1 " ++ h) = true).
  { rewrite forallb_app. apply andb_true_intro. split.
    - vm_compute. reflexivity.
    - apply forallb_forall. intros c Hc.
      rewrite Forall_forall in Hw. rewrite (Hw c Hc). reflexivity. }
  assert (Hsemi : forallb (fun c => negb (Ascii.eqb c ";"))
                          (list_ascii_of_string "ping -c 1 " ++ h) = true).
  { rewrite forallb_app. apply andb_true_intro. split.
    - vm_compute. reflexivity.
    - apply Hs. right. reflexivity. }
  assert (Hwords : Sh.words (list_ascii_of_string "ping -c 1 " ++ h)
                   = [list_ascii_of_string "ping"; list_ascii_of_string "-c";
                      list_ascii_of_string "1"; h]).
  { unfold Sh.words.
    change (list_ascii_of_string "ping -c 1 " ++ h)
      with (list_ascii_of_string "ping" ++ " "%char ::
            list_ascii_of_string "-c" ++ " "%char ::
            list_ascii_of_string "1" ++ " "%char :: h).
    rewrite !split_on_piece by (vm_compute; reflexivity).
    rewrite (split_on_whole _ h (Hs " "%char (or_introl eq_refl))).
    destruct h as [ | c h']; [ contradiction | reflexivity ]. }
  unfold Sh.parse, ping_command.
  rewrite !list_ascii_of_string_app. fold h.
  change (list_ascii_of_string " > /dev/null 2>&1") with Sh.redirection.
  rewrite app_assoc, strip_suffix_app, Hbody.
  rewrite (split_on_whole _ _ Hsemi).
  unfold Sh.commands. rewrite Hwords.
  unfold Sh.command_of.
  change (string_of_list_ascii (list_ascii_of_string "ping") =? "ping")%string
    with true.
  cbn iota. cbn [map].
  unfold h. rewrite !string_of_list_ascii_of_string. reflexivity.
Qed.

Lemma sh_world_runs_sh (ping : list string -> N)
      (other : string -> Termination) :
  runs_sh ping (sh_world ping other).
Proof. intros cmd t H. simpl. rewrite H. reflexivity. Qed.

Lemma shell_plain_host (ping : list string -> N) (w : World) (host : string) :
  runs_sh ping w -> plain_host host = true ->
  shell w (ping_command host) = Exited (ping ["-c"; "1"; host]%string).
Proof.
  intros Hsh Hp. apply Hsh. unfold Sh.run.
  rewrite (parse_plain_host host Hp). reflexivity.
Qed.

(** The script as it stands, and the two scenarios of the specification,
    run one after the other. *)
Example main_in_a_network_that_answers :
  stdout (exec health_check_main all_up) = ["google.com is UP"%string].
Proof. reflexivity. Qed.

Example loopback_then_test_net :
  exec (check_server "127.0.0.1" ;;; check_server "203.0.113.255")
       loopback_only
  = mkWorld (shell loopback_only)
            ["ping -c 1 127.0.0.1 > /dev/null 2>&1"%string;
             "ping -c 1 203.0.113.255 > /dev/null 2>&1"%string]
            ["127.0.0.1 is UP"%string; "203.0.113.255 is DOWN"%string].
Proof. reflexivity. Qed.

(** C1 (as amended). A call prints exactly one line when the host has no
    NUL character, and nothing when it has one; the line is "<host> is UP"
    when the command line given to the shell ends with status 0 and
    "<host> is DOWN" otherwise; and for a host that is one plain word the
    status is that of the one ping probe. *)
Theorem check_server_prints_one_line (host : string) (w : World) :
  stdout (exec (check_server host) w) =
  stdout w ++ (if has_nul host then []
               else [match shell w (ping_command host) with
                     | Exited 0 => host ++ " is UP"
                     | _ => host ++ " is DOWN"
                     end]%string)
  /\ (forall ping : list string -> N,
        runs_sh ping w -> plain_host host = true ->
        stdout (exec (check_server host) w) =
        stdout w ++ [if (ping ["-c"; "1"; host]%string =? 0)%N
                     then host ++ " is UP"
                     else host ++ " is DOWN"]%string).
Proof.
  unfold exec. rewrite check_server_run. split.
  - destruct (has_nul host); simpl; [ rewrite app_nil_r | ]; reflexivity.
  - intros ping Hsh Hp.
    rewrite (plain_host_no_nul host Hp). simpl.
    rewrite (shell_plain_host ping w host Hsh Hp).
    destruct (ping ["-c"; "1"; host]%string); reflexivity.
Qed.

Lemma check_server_prints_one_line_witness :
  let w := sh_world everybody_answers (fun _ => Exited 2) in
  runs_sh everybody_answers w /\
  plain_host "google.com" = true /\
  stdout (exec (check_server "google.com") w) = ["google.com is UP"%string].
Proof.
  intro w. split; [ apply sh_world_runs_sh | split; [ reflexivity | ] ].
  exact (proj2 (check_server_prints_one_line "google.com" w)
               everybody_answers (sh_world_runs_sh _ _) eq_refl).
Defined.

(** C1, the claim as stated, fails twice over.  For a host with a NUL
    character the call prints no line at all, in a network where every
    ping is answered.  And for the host "127.0.0.1; false", in that same
    network, the ping probe ends with status 0 and the call prints DOWN:
    the line follows the whole command line, not the probe. *)
Lemma check_server_line_is_not_the_probe :
  stdout (exec (check_server nul_host) all_up) = [] /\
  (forall args, everybody_answers args = 0%N) /\
  stdout (exec (check_server "127.0.0.1; false")
               (sh_world everybody_answers (fun _ => Exited 2)))
  = ["127.0.0.1; false is DOWN"%string].
Proof. split; [ reflexivity | split; [ reflexivity | reflexivity ] ]. Qed.




(** C4 (as amended). For a host that is one plain word, when the ping
    probe ends with a nonzero status (no reply before the timeout, or a
    rejected probe such as a name that does not resolve), [check_server]
    prints "<host> is DOWN": it reports [Unreachable]. *)
Theorem check_server_failed_probe_is_down
        (ping : list string -> N) (host : string) (w : World) :
  runs_sh ping w ->
  plain_host host = true ->
  ping ["-c"; "1"; host]%string <> 0%N ->
  stdout (exec (check_server host) w) = stdout w ++ [host ++ " is DOWN"]%string
  /\ reports w host Unreachable.
Proof.
  intros Hsh Hp Hfail.
  pose proof (shell_plain_host ping w host Hsh Hp) as E.
  pose proof (plain_host_no_nul host Hp) as Hn.
  split.
  - unfold exec. rewrite check_server_run, Hn, E. simpl.
    destruct (ping ["-c"; "1"; host]%string); [ contradiction | reflexivity ].
  - apply reports_iff. split; [ exact Hn | ]. rewrite E.
    destruct (ping ["-c"; "1"; host]%string); [ contradiction | reflexivity ].
Qed.

Lemma check_server_failed_probe_is_down_witness :
  let w := sh_world nobody_answers (fun _ => Exited 2) in
  runs_sh nobody_answers w /\
  plain_host "203.0.113.255" = true /\
  nobody_answers ["-c"; "1"; "203.0.113.255"]%string <> 0%N /\
  stdout (exec (check_server "203.0.113.255") w)
    = ["203.0.113.255 is DOWN"%string] /\
  reports w "203.0.113.255" Unreachable.
Proof.
  intro w.
  assert (Hsh : runs_sh nobody_answers w) by apply sh_world_runs_sh.
  assert (Hf : nobody_answers ["-c"; "1"; "203.0.113.255"]%string <> 0%N)
    by discriminate.
  split; [ exact Hsh | split; [ reflexivity | split; [ exact Hf | ] ] ].
  exact (check_server_failed_probe_is_down
           nobody_answers "203.0.113.255" w Hsh eq_refl Hf).
Defined.

(** C4, the claim as stated, fails: in a network where no ping gets a
    reply, the host "x; true" makes the call print UP, not DOWN: the shell
    runs the failing probe and then [true], and leaves with status 0. *)
Lemma failed_probe_reported_up :
  let w := sh_world nobody_answers (fun _ => Exited 2) in
  (forall args, nobody_answers args <> 0%N) /\
  Sh.parse (ping_command "x; true")
    = Some [Sh.Ping ["-c"; "1"; "x"]%string; Sh.True] /\
  stdout (exec (check_server "x; true") w) = ["x; true is UP"%string] /\
  ~ reports w "x; true" Unreachable.
Proof.
  intro w. split; [ discriminate | split; [ reflexivity | split ] ].
  - reflexivity.
  - intro H. apply reports_iff in H as [_ H]. discriminate H.
Qed.







(** C8. Two calls with the same host under the same network conditions (the
    probe ends the same way) report the same outcome class. *)
Theorem check_server_same_conditions_same_outcome
        (host : string) (w1 w2 : World) (r : ProbeResult) :
  shell w1 (ping_command host) = shell w2 (ping_command host) ->
  reports w1 host r ->
  reports w2 host r.
Proof.
  intros Hsame H. apply reports_iff. apply reports_iff in H.
  rewrite <- Hsame. exact H.
Qed.

(** The second of two calls in a row, in a world whose network all answers. *)
Lemma check_server_same_conditions_same_outcome_witness :
  let w1 := all_up in
  let w2 := exec (check_server "google.com") all_up in
  shell w1 (ping_command "google.com") = shell w2 (ping_command "google.com")
  /\ reports w1 "google.com" Reachable
  /\ reports w2 "google.com" Reachable.
Proof.
  intros w1 w2.
  assert (H1 : reports w1 "google.com" Reachable).
  { exists "google.com is UP"%string. split; reflexivity. }
  split; [ reflexivity | split; [ exact H1 | ] ].
  apply (check_server_same_conditions_same_outcome "google.com" w1 w2 Reachable).
  - reflexivity.
  - exact H1.
Defined.

(** C10 (as amended). For a host without a NUL character the command given
    to the shell is "ping -c 1 ", the host as it came, and
    " > /dev/null 2>&1": nothing checks, quotes or escapes the host on the
    way.  For a host with a NUL character [os.system] raises [ValueError]
    and no shell is invoked. *)
Theorem check_server_command (host : string) (w : World) :
  shell_log (exec (check_server host) w) =
  shell_log w ++ (if has_nul host then []
                  else ["ping -c 1 " ++ host ++ " > /dev/null 2>&1"]%string)
  /\ fst (check_server host w) =
     (if has_nul host then Raised (ValueError "embedded null byte")
      else Ok tt).
Proof.
  unfold exec. rewrite check_server_run.
  destruct (has_nul host); simpl; [ rewrite app_nil_r | ]; split; reflexivity.
Qed.

(** C10, the claim as stated, fails: with a NUL character in the host no
    command reaches the shell. *)
Lemma nul_host_starts_no_shell :
  shell_log (exec (check_server nul_host) all_up) = [] /\
  fst (check_server nul_host all_up)
    = Raised (ValueError "embedded null byte").
Proof. split; reflexivity. Qed.

End CheckServer.

(* ================================================================= *)
(** ** Properties of the IP extraction *)

Section Extraction.

Local Open Scope list_scope.
Local Open Scope char_scope.

Import Re.

Lemma compile_ip_pattern : compile ip_pattern = Some (ip_regex, 1).
Proof. vm_compute. reflexivity. Qed.

(** The engine on small inputs, with the answers of CPython 3. *)
Example findall_optional :
  findall "a?" "aab" = Some [Str "a"; Str "a"; Str EmptyString; Str EmptyString].
Proof. vm_compute. reflexivity. Qed.

Example findall_empty_then_letter :
  findall "|a" "a" = Some [Str EmptyString; Str "a"; Str EmptyString].
Proof. vm_compute. reflexivity. Qed.

Example findall_greedy_runs :
  findall "\d{1,3}" "12345 6" = Some [Str "123"; Str "45"; Str "6"].
Proof. vm_compute. reflexivity. Qed.

Example findall_four_groups :
  findall "(\d{1,3})\.(\d{1,3})\.(\d{1,3})\.(\d{1,3})" log_data
  = Some [Tuple ["192"; "168"; "1"; "10"]%string;
          Tuple ["203"; "0"; "113"; "5"]%string].
Proof. vm_compute. reflexivity. Qed.

(** *** Equations of the matcher *)

Lemma exec_Seq (r1 r2 : regex) (st : mstate) (k : mstate -> option mstate) :
  Re.exec (Seq r1 r2) st k = Re.exec r1 st (fun st1 => Re.exec r2 st1 k).
Proof. reflexivity. Qed.

Lemma exec_Group (n : nat) (r : regex) (st : mstate)
      (k : mstate -> option mstate) :
  Re.exec (Group n r) st k =
  Re.exec r st (fun st1 =>
    k (mkState (rest st1) ((n, consumed (rest st) (rest st1)) :: caps st1))).
Proof. reflexivity. Qed.

Lemma exec_Repeat_3_3 (r : regex) (st : mstate) (k : mstate -> option mstate) :
  Re.exec (Repeat r 3 3) st k =
  Re.exec r st (fun s1 => Re.exec r s1 (fun s2 => Re.exec r s2 k)).
Proof. reflexivity. Qed.

Lemma consumed_app (a b : list ascii) : consumed (a ++ b) b = a.
Proof.
  unfold consumed. rewrite length_app.
  replace (length a + length b - length b) with (length a + 0) by lia.
  rewrite firstn_app_2. simpl. apply app_nil_r.
Qed.

Lemma digit_run_inv (ds : list ascii) :
  digit_run ds = true ->
  (exists a, ds = [a] /\ is_digit a = true) \/
  (exists a b, ds = [a; b] /\ is_digit a = true /\ is_digit b = true) \/
  (exists a b c, ds = [a; b; c] /\
                 is_digit a = true /\ is_digit b = true /\ is_digit c = true).
Proof.
  unfold digit_run. intro H.
  apply andb_prop in H as [H H3]. apply andb_prop in H as [Hd H1].
  destruct ds as [ | a [ | b [ | c [ | d ds]]]]; simpl in *; try discriminate.
  - left. exists a. rewrite andb_true_r in Hd. auto.
  - right; left. exists a, b.
    apply andb_prop in Hd as [Ha Hb]. rewrite andb_true_r in Hb. auto.
  - right; right. exists a, b, c.
    apply andb_prop in Hd as [Ha Hd]. apply andb_prop in Hd as [Hb Hc].
    rewrite andb_true_r in Hc. auto.
Qed.

(** A run followed by something that is no digit: the greedy [\d{1,3}]
    takes the whole run first. *)
Lemma exec_digit_run (ds tl : list ascii) (cp : list (nat * list ascii))
      (k : mstate -> option mstate) (res : mstate) :
  digit_run ds = true ->
  starts_with_digit tl = false ->
  k (mkState tl cp) = Some res ->
  Re.exec (Repeat Digit 1 3) (mkState (ds ++ tl) cp) k = Some res.
Proof.
  intros Hrun Htl Hk.
  assert (Hstop : forall k', step is_digit (mkState tl cp) k' = None).
  { intro k'. unfold step. simpl. destruct tl as [ | x tl]; [ reflexivity | ].
    simpl in Htl. rewrite Htl. reflexivity. }
  apply digit_run_inv in Hrun
    as [[a [-> Ha]] | [[a [b [-> [Ha Hb]]]] | [a [b [c [-> [Ha [Hb Hc]]]]]]]];
    simpl; unfold step at 1; simpl; rewrite Ha.
  - rewrite Hstop. exact Hk.
  - unfold step at 1; simpl; rewrite Hb. rewrite Hstop. rewrite Hk. reflexivity.
  - unfold step at 1; simpl; rewrite Hb.
    unfold step at 1; simpl; rewrite Hc. rewrite Hk. reflexivity.
Qed.

(** One turn of the group [(\d{1,3}\.)] over a run and its dot. *)
Lemma exec_octet_group (ds tl : list ascii) (cp : list (nat * list ascii))
      (k : mstate -> option mstate) (res : mstate) :
  digit_run ds = true ->
  k (mkState tl ((1, ds ++ ["."]) :: cp)) = Some res ->
  Re.exec (Group 1 (Seq (Repeat Digit 1 3) (Chr ".")))
          (mkState (ds ++ "." :: tl) cp) k = Some res.
Proof.
  intros Hrun Hk. rewrite exec_Group, exec_Seq.
  apply exec_digit_run; [ exact Hrun | reflexivity | ].
  simpl. unfold step. simpl.
  replace (ds ++ "." :: tl) with ((ds ++ ["."]) ++ tl)
    by (rewrite <- app_assoc; reflexivity).
  rewrite consumed_app. exact Hk.
Qed.

(** The last run: [\d{1,3}] stops after the run, or takes up to three digits
    in all when more digits follow. *)
Lemma exec_digit_run_last (ds tl : list ascii) (cp : list (nat * list ascii)) :
  digit_run ds = true ->
  exists extra tl',
    tl = extra ++ tl' /\
    Re.exec (Repeat Digit 1 3) (mkState (ds ++ tl) cp) (fun st => Some st)
    = Some (mkState tl' cp).
Proof.
  intro Hrun.
  assert (Hone : forall s : list ascii,
            exists e s', s = e ++ s' /\
              match step is_digit (mkState s cp) (fun st => Some st) with
              | Some res => Some res
              | None => Some (mkState s cp)
              end = Some (mkState s' cp)).
  { intros [ | x s]; unfold step; simpl.
    - exists [], []. auto.
    - destruct (is_digit x).
      + exists [x], s. auto.
      + exists [], (x :: s). auto. }
  apply digit_run_inv in Hrun
    as [[a [-> Ha]] | [[a [b [-> [Ha Hb]]]] | [a [b [c [-> [Ha [Hb Hc]]]]]]]];
    simpl; unfold step at 1; simpl; rewrite Ha.
  - destruct tl as [ | x tl]; unfold step at 1; simpl.
    + exists [], []. auto.
    + destruct (is_digit x) eqn:Hx.
      * destruct (Hone tl) as [e [s' [-> He]]].
        exists (x :: e), s'. split; [ reflexivity | rewrite He; reflexivity ].
      * exists [], (x :: tl). auto.
  - unfold step at 1; simpl; rewrite Hb.
    destruct (Hone tl) as [e [s' [Htl He]]].
    exists e, s'. split; [ exact Htl | rewrite He; reflexivity ].
  - unfold step at 1; simpl; rewrite Hb.
    unfold step at 1; simpl; rewrite Hc.
    exists [], tl. auto.
Qed.

Lemma dotted_app (d1 d2 d3 d4 tl : list ascii) :
  dotted d1 d2 d3 d4 ++ tl = d1 ++ "." :: d2 ++ "." :: d3 ++ "." :: d4 ++ tl.
Proof.
  unfold dotted.
  repeat (rewrite <- app_assoc; rewrite <- app_comm_cons).
  reflexivity.
Qed.

(** The pattern at the head of a dotted quad: it matches, the match covers
    the quad, and group 1 holds the third run with its dot. *)
Lemma match_at_dotted (d1 d2 d3 d4 tl : list ascii) :
  digit_run d1 = true -> digit_run d2 = true ->
  digit_run d3 = true -> digit_run d4 = true ->
  exists st extra,
    match_at ip_regex (dotted d1 d2 d3 d4 ++ tl) false = Some st /\
    consumed (dotted d1 d2 d3 d4 ++ tl) (rest st) = dotted d1 d2 d3 d4 ++ extra /\
    group st 1 = string_of_list_ascii (d3 ++ ["."]).
Proof.
  intros H1 H2 H3 H4.
  destruct (exec_digit_run_last d4 tl
              [(1, d3 ++ ["."]); (1, d2 ++ ["."]); (1, d1 ++ ["."])] H4)
    as [extra [tl' [Htl Hlast]]].
  eexists. exists extra. split; [ | split ].
  - unfold match_at, ip_regex. simpl andb.
    rewrite exec_Seq, exec_Repeat_3_3, dotted_app.
    apply exec_octet_group; [ exact H1 | ].
    apply exec_octet_group; [ exact H2 | ].
    apply exec_octet_group; [ exact H3 | ].
    exact Hlast.
  - simpl rest. rewrite Htl.
    replace (dotted d1 d2 d3 d4 ++ extra ++ tl')
      with ((dotted d1 d2 d3 d4 ++ extra) ++ tl')
      by (rewrite <- app_assoc; reflexivity).
    apply consumed_app.
  - reflexivity.
Qed.

(** A match somewhere in the text makes the search succeed. *)
Lemma search_finds (r : regex) (s : list ascii) (st : mstate)
      (before : list ascii) :
  match_at r s false = Some st ->
  search r (before ++ s) false <> None.
Proof.
  intro Hm. induction before as [ | x before IH]; simpl app.
  - destruct s; simpl; rewrite Hm; discriminate.
  - simpl. destruct (match_at r (x :: before ++ s) false).
    + discriminate.
    + exact IH.
Qed.

(** C9. The pattern [(\d{1,3}\.){3}\d{1,3}] matches any four runs of one to
    three digits with dots between them, wherever they stand in the text,
    and whatever number a run writes: it matches all of "999.999.999.999",
    which is no IPv4 address. *)
Theorem ip_pattern_matches_any_digit_runs
        (d1 d2 d3 d4 before after : list ascii) :
  digit_run d1 = true -> digit_run d2 = true ->
  digit_run d3 = true -> digit_run d4 = true ->
  (exists st extra,
     match_at ip_regex (dotted d1 d2 d3 d4 ++ after) false = Some st /\
     consumed (dotted d1 d2 d3 d4 ++ after) (rest st)
       = dotted d1 d2 d3 d4 ++ extra) /\
  search ip_regex (before ++ dotted d1 d2 d3 d4 ++ after) false <> None /\
  (exists st,
     match_at ip_regex (dotted nines nines nines nines) false = Some st /\
     matched_text (dotted nines nines nines nines) st
       = "999.999.999.999"%string /\
     valid_ipv4 nines nines nines nines = false).
Proof.
  intros H1 H2 H3 H4.
  destruct (match_at_dotted d1 d2 d3 d4 after H1 H2 H3 H4)
    as [st [extra [Hm [Hc _]]]].
  split; [ | split ].
  - exists st, extra. auto.
  - apply (search_finds ip_regex _ st). exact Hm.
  - eexists. split; [ vm_compute; reflexivity | split; reflexivity ].
Qed.

Lemma ip_pattern_matches_any_digit_runs_witness :
  digit_run nines = true /\
  search ip_regex
         (list_ascii_of_string "from " ++ dotted nines nines nines nines
            ++ list_ascii_of_string " port 22") false <> None.
Proof.
  split; [ reflexivity | ].
  apply (ip_pattern_matches_any_digit_runs
           nines nines nines nines
           (list_ascii_of_string "from ") (list_ascii_of_string " port 22"));
    reflexivity.
Defined.

(** *** [findall] always returns *)

(** Whatever the continuation accepts lies at or after the position where
    the pattern was entered. *)
Lemma exec_shrinks (r : regex) :
  forall (st : mstate) (k : mstate -> option mstate) (res : mstate),
    Re.exec r st k = Some res ->
    exists st', k st' = Some res /\ length (rest st') <= length (rest st).
Proof.
  assert (Hstep : forall p st k res,
            step p st k = Some res ->
            exists st', k st' = Some res /\
                        length (rest st') <= length (rest st)).
  { intros p st k res. unfold step.
    destruct (rest st) as [ | c tl] eqn:E; [ discriminate | ].
    destruct (p c); [ | discriminate ].
    intro H. eexists. split; [ exact H | simpl; lia ]. }
  induction r as [ | c | | | r1 IH1 r2 IH2 | r1 IH1 r2 IH2 | n r1 IH1
                   | r1 IH1 lo hi ]; intros st k res H; simpl in H.
  - exists st. auto.
  - eapply Hstep; eauto.
  - eapply Hstep; eauto.
  - eapply Hstep; eauto.
  - apply IH1 in H as [st1 [H Hl1]].
    apply IH2 in H as [st2 [H Hl2]].
    exists st2. split; [ exact H | lia ].
  - destruct (Re.exec r1 st k) eqn:E1.
    + injection H as <-. apply IH1 in E1. exact E1.
    + apply IH2 in H. exact H.
  - apply IH1 in H as [st1 [H Hl1]].
    eexists. split; [ exact H | simpl; exact Hl1 ].
  - revert lo st k res H.
    induction hi as [ | hi IHhi]; intros lo st k res H.
    + destruct lo; [ | discriminate ]. exists st. auto.
    + destruct lo as [ | lo].
      * match type of H with
        | match ?e with _ => _ end = _ => destruct e eqn:E1
        end.
        -- injection H as <-.
           apply IH1 in E1 as [st1 [E1 Hl1]].
           apply IHhi in E1 as [st2 [E1 Hl2]].
           exists st2. split; [ exact E1 | lia ].
        -- exists st. auto.
      * apply IH1 in H as [st1 [H Hl1]].
        apply IHhi in H as [st2 [H Hl2]].
        exists st2. split; [ exact H | lia ].
Qed.

Lemma match_at_shrinks (r : regex) (s : list ascii) (ma : bool)
      (st : mstate) :
  match_at r s ma = Some st ->
  length (rest st) <= length s /\
  (ma = true -> length (rest st) < length s).
Proof.
  unfold match_at. intro H.
  apply exec_shrinks in H as [st' [H Hl]]. simpl in Hl.
  destruct ma; simpl in H.
  - destruct (Nat.eqb_spec (length (rest st')) (length s)) as [E | E];
      [ discriminate | ].
    injection H as <-. split; [ exact Hl | intros _; lia ].
  - injection H as <-. split; [ exact Hl | discriminate ].
Qed.

Lemma search_shrinks (r : regex) (s : list ascii) :
  forall (ma : bool) (start : list ascii) (st : mstate),
    search r s ma = Some (start, st) ->
    length (rest st) <= length start /\ length start <= length s /\
    (ma = true -> length (rest st) < length s).
Proof.
  induction s as [ | c s IH]; intros ma start st H; simpl in H.
  - destruct (match_at r [] ma) eqn:E; [ | discriminate ].
    injection H as <- <-. apply match_at_shrinks in E as [E1 E2]. auto.
  - destruct (match_at r (c :: s) ma) eqn:E.
    + injection H as <- <-. apply match_at_shrinks in E as [E1 E2]. auto.
    + apply IH in H as [H1 [H2 _]]. simpl. repeat split; lia.
Qed.

(** The loop of [findall] ends before its fuel does. *)
Lemma findall_loop_total (r : regex) (groups : nat) (fuel : nat) :
  forall (s : list ascii) (ma : bool),
    2 * length s + (if ma then 0 else 1) < fuel ->
    exists items, findall_loop fuel r groups s ma = Some items.
Proof.
  induction fuel as [ | fuel IH]; intros s ma Hfuel; [ lia | ].
  simpl. destruct (search r s ma) as [[start st] | ] eqn:E.
  - apply search_shrinks in E as [H1 [H2 H3]].
    destruct (IH (rest st) (length (rest st) =? length start)%nat)
      as [items Hi].
    + destruct (Nat.eqb_spec (length (rest st)) (length start)) as [Eq | Ne].
      * destruct ma; [ specialize (H3 eq_refl) | ]; lia.
      * destruct ma; [ specialize (H3 eq_refl) | ]; lia.
    + rewrite Hi. eexists. reflexivity.
  - eexists. reflexivity.
Qed.

Lemma findall_compiled_total (r : regex) (groups : nat) (text : string) :
  exists items, findall_compiled r groups text = Some items.
Proof. unfold findall_compiled. apply findall_loop_total. lia. Qed.

(** A pattern without a group: [findall] keeps the whole of each match. *)
Lemma findall_item_no_group (start : list ascii) (st : mstate) :
  findall_item 0 start st = Str (matched_text start st).
Proof. reflexivity. Qed.

(** C3. On the log of the script, [re.findall] with the script's pattern
    returns what its one capturing group matched last, "1." and "113.", and
    not the addresses "192.168.1.10" and "203.0.113.5"; the same pattern
    with the group made non-capturing returns the addresses. *)
Theorem ip_addresses_are_group_texts :
  ip_addresses = Some [Str "1."; Str "113."] /\
  ip_addresses <> Some [Str "192.168.1.10"; Str "203.0.113.5"] /\
  findall "(?:\d{1,3}\.){3}\d{1,3}" log_data
    = Some [Str "192.168.1.10"; Str "203.0.113.5"].
Proof.
  split; [ vm_compute; reflexivity | split ].
  - vm_compute. discriminate.
  - vm_compute. reflexivity.
Qed.

End Extraction.

(* ================================================================= *)
(** ** More on [check_server] *)

Section CheckServerMore.

Local Open Scope list_scope.

Lemma string_length_append (a b : string) :
  String.length (a ++ b) = String.length a + String.length b.
Proof. induction a as [ | x a IH]; simpl; [ reflexivity | rewrite IH; reflexivity ]. Qed.

Lemma append_inj_r (s : string) :
  forall a b : string, (a ++ s = b ++ s)%string -> a = b.
Proof.
  induction a as [ | x a IH]; intros [ | y b] H; simpl in H.
  - reflexivity.
  - exfalso. apply (f_equal String.length) in H. simpl in H.
    rewrite string_length_append in H. lia.
  - exfalso. apply (f_equal String.length) in H. simpl in H.
    rewrite string_length_append in H. lia.
  - injection H as -> H. f_equal. apply IH. exact H.
Qed.

(** X1. The line "<host> is UP" is printed if and only if the host has no
    NUL character and the command line ended with exit code 0: the line
    alone tells which branch was taken. *)
Theorem check_server_up_iff_exit_zero (host : string) (w : World) :
  stdout (exec (check_server host) w) = stdout w ++ [host ++ " is UP"]%string
  <-> has_nul host = false /\ shell w (ping_command host) = Exited 0.
Proof.
  unfold exec. rewrite check_server_run.
  destruct (has_nul host); simpl snd; simpl stdout; split.
  - intro H. exfalso. exact (not_longer_by_one _ _ H).
  - intros [H _]. discriminate.
  - intro H. split; [ reflexivity | ].
    apply app_inv_head in H. injection H as H.
    destruct (shell w (ping_command host)) as [[ | p] | sig | ];
      try reflexivity;
      exfalso; apply (up_is_not_down host); congruence.
  - intros [_ ->]. reflexivity.
Qed.

(** X2. Two different hosts never give the same command line. *)
Theorem ping_command_distinguishes_hosts (h1 h2 : string) :
  h1 <> h2 -> ping_command h1 <> ping_command h2.
Proof.
  intros Hne H. apply Hne. unfold ping_command in H.
  apply append_inj_l in H. apply append_inj_r in H. exact H.
Qed.

Lemma ping_command_distinguishes_hosts_witness :
  "google.com"%string <> "google.com "%string /\
  ping_command "google.com" <> ping_command "google.com ".
Proof.
  split.
  - discriminate.
  - apply (ping_command_distinguishes_hosts "google.com" "google.com ").
    discriminate.
Defined.

End CheckServerMore.

(* ================================================================= *)
(** ** More on the IP extraction: every text *)

Section ExtractionMore.

Local Open Scope list_scope.
Local Open Scope char_scope.

Import Re.

(** *** Reading a successful match backwards *)

Lemma step_inv (p : ascii -> bool) (st : mstate)
      (k : mstate -> option mstate) (res : mstate) :
  step p st k = Some res ->
  exists c tl, rest st = c :: tl /\ p c = true /\
               k (mkState tl (caps st)) = Some res.
Proof.
  unfold step. destruct (rest st) as [ | c tl]; [ discriminate | ].
  destruct (p c) eqn:Hp; [ | discriminate ].
  intro H. exists c, tl. auto.
Qed.

Lemma digit_run_1 (a : ascii) : is_digit a = true -> digit_run [a] = true.
Proof. intro Ha. unfold digit_run. simpl. rewrite Ha. reflexivity. Qed.

Lemma digit_run_2 (a b : ascii) :
  is_digit a = true -> is_digit b = true -> digit_run [a; b] = true.
Proof. intros Ha Hb. unfold digit_run. simpl. rewrite Ha, Hb. reflexivity. Qed.

Lemma digit_run_3 (a b c : ascii) :
  is_digit a = true -> is_digit b = true -> is_digit c = true ->
  digit_run [a; b; c] = true.
Proof.
  intros Ha Hb Hc. unfold digit_run. simpl. rewrite Ha, Hb, Hc. reflexivity.
Qed.

(** [\d{1,3}] only ever takes a run of one to three digits. *)
Lemma exec_digits_inv (st : mstate) (k : mstate -> option mstate)
      (res : mstate) :
  Re.exec (Repeat Digit 1 3) st k = Some res ->
  exists ds tl, rest st = ds ++ tl /\ digit_run ds = true /\
                k (mkState tl (caps st)) = Some res.
Proof.
  intro H. simpl in H.
  apply step_inv in H as [a [s1 [Hr [Ha H]]]].
  match type of H with
  | match ?e with _ => _ end = _ => destruct e as [r1 | ] eqn:E1
  end.
  - injection H as ->.
    apply step_inv in E1 as [b [s2 [Hr2 [Hb E1]]]]. simpl in Hr2, E1.
    subst s1.
    match type of E1 with
    | match ?e with _ => _ end = _ => destruct e as [r2 | ] eqn:E2
    end.
    + injection E1 as ->.
      apply step_inv in E2 as [c [s3 [Hr3 [Hc E2]]]]. simpl in Hr3, E2.
      subst s2.
      exists [a; b; c], s3. split; [ exact Hr | ].
      split; [ apply digit_run_3; assumption | exact E2 ].
    + exists [a; b], s2. split; [ exact Hr | ].
      split; [ apply digit_run_2; assumption | exact E1 ].
  - exists [a], s1. split; [ exact Hr | ].
    split; [ apply digit_run_1; assumption | exact H ].
Qed.

(** A turn of the group takes a run and a dot, and the group holds them. *)
Lemma exec_octet_group_inv (st : mstate) (k : mstate -> option mstate)
      (res : mstate) :
  Re.exec (Group 1 (Seq (Repeat Digit 1 3) (Chr "."))) st k = Some res ->
  exists ds tl, rest st = ds ++ "." :: tl /\ digit_run ds = true /\
                k (mkState tl ((1, ds ++ ["."]) :: caps st)) = Some res.
Proof.
  intro H. rewrite exec_Group, exec_Seq in H.
  apply exec_digits_inv in H as [ds [s1 [Hr [Hd H]]]].
  change (Re.exec (Chr ".") ?s ?c) with (step (Ascii.eqb ".") s c) in H.
  apply step_inv in H as [c [tl [Hr1 [Hc H]]]]. simpl in Hr1, H.
  apply Ascii.eqb_eq in Hc. subst c s1.
  exists ds, tl. split; [ exact Hr | split; [ exact Hd | ] ].
  rewrite Hr in H.
  replace (ds ++ "." :: tl) with ((ds ++ ["."]) ++ tl) in H
    by (rewrite <- app_assoc; reflexivity).
  rewrite consumed_app in H. exact H.
Qed.

(** Whatever the pattern matches is a dotted quad of digit runs, and group 1
    is left with the third run and its dot. *)
Lemma match_at_ip_inv (s : list ascii) (ma : bool) (st : mstate) :
  match_at ip_regex s ma = Some st ->
  exists d1 d2 d3 d4,
    digit_run d1 = true /\ digit_run d2 = true /\
    digit_run d3 = true /\ digit_run d4 = true /\
    s = dotted d1 d2 d3 d4 ++ rest st /\
    caps st = [(1, d3 ++ ["."]); (1, d2 ++ ["."]); (1, d1 ++ ["."])].
Proof.
  unfold match_at, ip_regex. intro H.
  rewrite exec_Seq, exec_Repeat_3_3 in H.
  apply exec_octet_group_inv in H as [d1 [t1 [Hr1 [H1 H]]]].
  apply exec_octet_group_inv in H as [d2 [t2 [Hr2 [H2 H]]]].
  apply exec_octet_group_inv in H as [d3 [t3 [Hr3 [H3 H]]]].
  apply exec_digits_inv in H as [d4 [t4 [Hr4 [H4 H]]]].
  simpl in Hr1, Hr2, Hr3, Hr4, H.
  destruct (ma && (length t4 =? length s)%nat); [ discriminate | ].
  injection H as <-. simpl.
  exists d1, d2, d3, d4. repeat (split; [ assumption | ]).
  split; [ | reflexivity ].
  rewrite dotted_app. subst s t1 t2 t3. reflexivity.
Qed.

Lemma search_unfold (r : regex) (s : list ascii) (ma : bool) :
  search r s ma =
  match match_at r s ma with
  | Some st => Some (s, st)
  | None => match s with
            | [] => None
            | _ :: tl => search r tl false
            end
  end.
Proof. destruct s; reflexivity. Qed.

(** What [search] returns is a match at a later place of the text. *)
Lemma search_inv (r : regex) (s : list ascii) :
  forall (ma : bool) (start : list ascii) (st : mstate),
    search r s ma = Some (start, st) ->
    exists gap ma', s = gap ++ start /\ match_at r start ma' = Some st.
Proof.
  induction s as [ | c s IH]; intros ma start st H; simpl in H.
  - destruct (match_at r [] ma) eqn:E; [ | discriminate ].
    injection H as <- <-. exists [], ma. auto.
  - destruct (match_at r (c :: s) ma) eqn:E.
    + injection H as <- <-. exists [], ma. auto.
    + apply IH in H as [gap [ma' [Hs Hm]]].
      exists (c :: gap), ma'. split; [ simpl; rewrite Hs; reflexivity | exact Hm ].
Qed.

(** *** The list, exactly *)

Lemma digit_run_bounds (ds : list ascii) :
  digit_run ds = true -> 1 <= length ds <= 3.
Proof.
  unfold digit_run. intro H.
  apply andb_prop in H as [H H3]. apply andb_prop in H as [_ H1].
  apply Nat.leb_le in H1, H3. lia.
Qed.

Lemma dotted_app_length (d1 d2 d3 d4 tl : list ascii) :
  digit_run d1 = true -> digit_run d2 = true ->
  digit_run d3 = true -> digit_run d4 = true ->
  length tl + 7 <= length (dotted d1 d2 d3 d4 ++ tl).
Proof.
  intros H1 H2 H3 H4. apply digit_run_bounds in H1, H2, H3, H4.
  unfold dotted. repeat (rewrite length_app; simpl length). lia.
Qed.

(** The last [\d{1,3}], with nothing of the pattern after it, stops only
    before a character that is no digit, or after three digits. *)
Lemma exec_digits_last_inv (st res : mstate) :
  Re.exec (Repeat Digit 1 3) st (fun st' => Some st') = Some res ->
  exists ds tl,
    rest st = ds ++ tl /\ digit_run ds = true /\
    res = mkState tl (caps st) /\
    (length ds = 3 \/ starts_with_digit tl = false).
Proof.
  destruct st as [s cp]. intro H. simpl in H. unfold step in H. simpl in H.
  destruct s as [ | a s1]; [ discriminate | ].
  destruct (is_digit a) eqn:Ha; [ | discriminate ].
  destruct s1 as [ | b s2]; simpl in H.
  { injection H as <-. exists [a], []. simpl.
    repeat split; auto using digit_run_1. }
  destruct (is_digit b) eqn:Hb; simpl in H.
  2:{ injection H as <-. exists [a], (b :: s2). simpl.
      repeat split; auto using digit_run_1. }
  destruct s2 as [ | c s3]; simpl in H.
  { injection H as <-. exists [a; b], []. simpl.
    repeat split; auto using digit_run_2. }
  destruct (is_digit c) eqn:Hc; simpl in H.
  - injection H as <-. exists [a; b; c], s3. simpl.
    repeat split; auto using digit_run_3.
  - injection H as <-. exists [a; b], (c :: s3). simpl.
    repeat split; auto using digit_run_2.
Qed.

(** A match of the pattern, read backwards, with its last run as long as
    it can be. *)
Lemma match_at_ip_inv_greedy (s : list ascii) (st : mstate) :
  match_at ip_regex s false = Some st ->
  exists d1 d2 d3 d4,
    digit_run d1 = true /\ digit_run d2 = true /\
    digit_run d3 = true /\ digit_run d4 = true /\
    s = dotted d1 d2 d3 d4 ++ rest st /\
    group st 1 = string_of_list_ascii (d3 ++ ["."]) /\
    (length d4 = 3 \/ starts_with_digit (rest st) = false).
Proof.
  unfold match_at, ip_regex. intro H. cbn [andb] in H.
  rewrite exec_Seq, exec_Repeat_3_3 in H.
  apply exec_octet_group_inv in H as [d1 [t1 [Hr1 [H1 H]]]].
  apply exec_octet_group_inv in H as [d2 [t2 [Hr2 [H2 H]]]].
  apply exec_octet_group_inv in H as [d3 [t3 [Hr3 [H3 H]]]].
  apply exec_digits_last_inv in H as [d4 [t4 [Hr4 [H4 [-> Hg]]]]].
  simpl in Hr1, Hr2, Hr3, Hr4.
  exists d1, d2, d3, d4. repeat (split; [ assumption | ]).
  split; [ | split; [ reflexivity | exact Hg ] ].
  simpl rest. rewrite dotted_app. subst s t1 t2 t3. reflexivity.
Qed.

Lemma exec_digit_run_greedy (ds tl : list ascii)
      (cp : list (nat * list ascii))
      (k : mstate -> option mstate) (res : mstate) :
  digit_run ds = true ->
  length ds = 3 \/ starts_with_digit tl = false ->
  k (mkState tl cp) = Some res ->
  Re.exec (Repeat Digit 1 3) (mkState (ds ++ tl) cp) k = Some res.
Proof.
  intros Hrun [Hlen | Htl] Hk.
  - apply digit_run_inv in Hrun
      as [[a [-> Ha]] | [[a [b [-> [Ha Hb]]]] | [a [b [c [-> [Ha [Hb Hc]]]]]]]];
      try discriminate Hlen.
    simpl. unfold step at 1; simpl; rewrite Ha.
    unfold step at 1; simpl; rewrite Hb.
    unfold step at 1; simpl; rewrite Hc. rewrite Hk. reflexivity.
  - apply exec_digit_run; assumption.
Qed.

Lemma match_at_dotted_greedy (d1 d2 d3 d4 tl : list ascii) :
  digit_run d1 = true -> digit_run d2 = true ->
  digit_run d3 = true -> digit_run d4 = true ->
  length d4 = 3 \/ starts_with_digit tl = false ->
  match_at ip_regex (dotted d1 d2 d3 d4 ++ tl) false
  = Some (mkState tl [(1, d3 ++ ["."]); (1, d2 ++ ["."]); (1, d1 ++ ["."])]).
Proof.
  intros H1 H2 H3 H4 Hg.
  unfold match_at, ip_regex. simpl andb.
  rewrite exec_Seq, exec_Repeat_3_3, dotted_app.
  apply exec_octet_group; [ exact H1 | ].
  apply exec_octet_group; [ exact H2 | ].
  apply exec_octet_group; [ exact H3 | ].
  apply exec_digit_run_greedy; [ exact H4 | exact Hg | reflexivity ].
Qed.

(** The pattern matches at a place exactly when a quad begins there. *)
Lemma match_at_quad_at (s : list ascii) :
  match_at ip_regex s false <> None <-> quad_at s.
Proof.
  split.
  - destruct (match_at ip_regex s false) as [st | ] eqn:E;
      [ intros _ | intro H; contradiction ].
    apply match_at_ip_inv in E
      as [d1 [d2 [d3 [d4 [H1 [H2 [H3 [H4 [Hs _]]]]]]]]].
    exists d1, d2, d3, d4, (rest st). auto.
  - intros [d1 [d2 [d3 [d4 [tl [H1 [H2 [H3 [H4 ->]]]]]]]]].
    destruct (match_at_dotted d1 d2 d3 d4 tl H1 H2 H3 H4)
      as [st [extra [Hm _]]].
    rewrite Hm. discriminate.
Qed.

Lemma match_at_no_quad (s : list ascii) :
  ~ quad_at s -> match_at ip_regex s false = None.
Proof.
  intro H. destruct (match_at ip_regex s false) eqn:E; [ | reflexivity ].
  exfalso. apply H. apply match_at_quad_at. rewrite E. discriminate.
Qed.

(** A search that fails has found no match at any place. *)
Lemma search_none_inv (r : regex) (s : list ascii) :
  search r s false = None ->
  forall a b, s = a ++ b -> match_at r b false = None.
Proof.
  induction s as [ | c s IH]; intros H a b Hs; rewrite search_unfold in H.
  - destruct a; [ | discriminate ]. simpl in Hs. subst b.
    destruct (match_at r [] false); [ discriminate | reflexivity ].
  - destruct (match_at r (c :: s) false) eqn:E; [ discriminate | ].
    destruct a as [ | x a]; simpl in Hs.
    + subst b. exact E.
    + injection Hs as _ Hs. exact (IH H a b Hs).
Qed.

Lemma search_none (r : regex) (s : list ascii) :
  (forall a b, s = a ++ b -> match_at r b false = None) ->
  search r s false = None.
Proof.
  induction s as [ | c s IH]; intro H; rewrite search_unfold;
    rewrite (H [] _ eq_refl).
  - reflexivity.
  - apply IH. intros a b Hs. apply (H (c :: a) b). rewrite Hs. reflexivity.
Qed.

(** A search that succeeds has found the first place with a match. *)
Lemma search_leftmost (r : regex) (s : list ascii) :
  forall (start : list ascii) (st : mstate),
    search r s false = Some (start, st) ->
    exists gap,
      s = gap ++ start /\ match_at r start false = Some st /\
      forall a b, gap = a ++ b -> b <> [] ->
                  match_at r (b ++ start) false = None.
Proof.
  induction s as [ | c s IH]; intros start st H; rewrite search_unfold in H.
  - destruct (match_at r [] false) eqn:E; [ | discriminate ].
    injection H as <- <-. exists []. split; [ reflexivity | split; [ exact E | ] ].
    intros a b Hab Hb. destruct a; destruct b; try discriminate.
    contradiction.
  - destruct (match_at r (c :: s) false) eqn:E.
    + injection H as <- <-. exists [].
      split; [ reflexivity | split; [ exact E | ] ].
      intros a b Hab Hb. destruct a; destruct b; try discriminate.
      contradiction.
    + apply IH in H as [gap [Hs [Hm Hleft]]].
      exists (c :: gap). split; [ simpl; rewrite Hs; reflexivity | ].
      split; [ exact Hm | ].
      intros a b Hab Hb. destruct a as [ | x a]; simpl in Hab.
      * subst b. simpl. rewrite <- Hs. exact E.
      * injection Hab as _ Hab. exact (Hleft a b Hab Hb).
Qed.

Lemma search_skips_gap (r : regex) (gap start : list ascii) :
  (forall a b, gap = a ++ b -> b <> [] ->
               match_at r (b ++ start) false = None) ->
  search r (gap ++ start) false = search r start false.
Proof.
  induction gap as [ | c gap IH]; intro H; [ reflexivity | ].
  simpl app. rewrite search_unfold.
  assert (E : match_at r (c :: gap ++ start) false = None).
  { apply (H [] (c :: gap) eq_refl). discriminate. }
  rewrite E.
  apply IH. intros a b Hab Hb. apply (H (c :: a) b); [ | exact Hb ].
  rewrite Hab. reflexivity.
Qed.

Lemma findall_loop_extraction (fuel : nat) :
  forall (s : list ascii) (items : list item),
    findall_loop fuel ip_regex 1 s false = Some items ->
    extraction s items.
Proof.
  induction fuel as [ | fuel IH]; intros s items H; simpl in H;
    [ discriminate | ].
  destruct (search ip_regex s false) as [[start st] | ] eqn:E.
  - apply search_leftmost in E as [gap [Hs [Hm Hleft]]].
    apply match_at_ip_inv_greedy in Hm
      as [d1 [d2 [d3 [d4 [H1 [H2 [H3 [H4 [Hstart [Hg Hgreedy]]]]]]]]]].
    assert (Hlen : (length (rest st) =? length start)%nat = false).
    { apply Nat.eqb_neq. rewrite Hstart.
      pose proof (dotted_app_length d1 d2 d3 d4 (rest st) H1 H2 H3 H4).
      lia. }
    rewrite Hlen in H.
    destruct (findall_loop fuel ip_regex 1 (rest st) false)
      as [items' | ] eqn:E'; [ | discriminate ].
    injection H as <-.
    apply IH in E'.
    rewrite Hg, Hs. rewrite Hstart at 1.
    apply extraction_quad; try assumption.
    intros a b Hab Hb Hq. rewrite <- Hstart in Hq.
    apply match_at_quad_at in Hq. apply Hq. exact (Hleft a b Hab Hb).
  - injection H as <-. apply extraction_done.
    intros a b Hs Hq. apply match_at_quad_at in Hq. apply Hq.
    exact (search_none_inv _ _ E a b Hs).
Qed.

(** The other way round: the text read as [extraction] says is what the
    loop of [findall] returns, given the fuel. *)
Lemma extraction_findall_loop (s : list ascii) (items : list item) :
  extraction s items ->
  forall fuel, 2 * length s + 1 < fuel ->
               findall_loop fuel ip_regex 1 s false = Some items.
Proof.
  induction 1 as [ s Hno | gap d1 d2 d3 d4 s items H1 H2 H3 H4 Hg Hleft _ IH ];
    intros fuel Hfuel; (destruct fuel as [ | fuel]; [ lia | ]); simpl.
  - rewrite search_none; [ reflexivity | ].
    intros a b Hs. apply match_at_no_quad. exact (Hno a b Hs).
  - rewrite search_skips_gap.
    2:{ intros a b Hab Hb. apply match_at_no_quad. exact (Hleft a b Hab Hb). }
    rewrite search_unfold.
    rewrite (match_at_dotted_greedy d1 d2 d3 d4 s H1 H2 H3 H4 Hg).
    simpl rest.
    pose proof (dotted_app_length d1 d2 d3 d4 s H1 H2 H3 H4) as Hlen.
    assert (E : (length s =? length (dotted d1 d2 d3 d4 ++ s))%nat = false).
    { apply Nat.eqb_neq. lia. }
    rewrite E. rewrite IH.
    + reflexivity.
    + rewrite length_app in Hfuel. lia.
Qed.

(** X3. For every text, [re.findall] with the script's pattern returns a
    list, and it returns exactly the list that reading the text from left
    to right gives: at each step the first place where a dotted quad of
    digit runs begins, the quad taken with its last run as long as it can
    be, the element being the third run of the quad with its dot, never
    the quad; and no element once no quad begins anywhere in what is
    left. *)
Theorem findall_ip_pattern_extraction (text : string) :
  (exists items, findall ip_pattern text = Some items) /\
  forall items,
    findall ip_pattern text = Some items <->
    extraction (list_ascii_of_string text) items.
Proof.
  unfold findall. rewrite compile_ip_pattern. split.
  - apply findall_compiled_total.
  - intro items. unfold findall_compiled. split.
    + apply findall_loop_extraction.
    + intro H. apply (extraction_findall_loop _ _ H). lia.
Qed.

Lemma findall_ip_pattern_returns (text : string) :
  exists items, findall ip_pattern text = Some items.
Proof.
  unfold findall. rewrite compile_ip_pattern.
  apply findall_compiled_total.
Qed.

Lemma findall_ip_pattern_sound (text : string) (items : list item) :
  findall ip_pattern text = Some items ->
  extraction (list_ascii_of_string text) items.
Proof.
  unfold findall. rewrite compile_ip_pattern. unfold findall_compiled.
  apply findall_loop_extraction.
Qed.

(** X4. A match of the pattern, wherever [search] finds it, is always four
    runs of one to three digits with dots between them: nothing of another
    shape is matched. *)
Theorem search_ip_pattern_finds_dotted_quads
        (s : list ascii) (ma : bool) (start : list ascii) (st : mstate) :
  search ip_regex s ma = Some (start, st) ->
  exists d1 d2 d3 d4,
    digit_run d1 = true /\ digit_run d2 = true /\
    digit_run d3 = true /\ digit_run d4 = true /\
    matched_text start st = string_of_list_ascii (dotted d1 d2 d3 d4).
Proof.
  intro H. apply search_inv in H as [gap [ma' [_ Hm]]].
  apply match_at_ip_inv in Hm
    as [d1 [d2 [d3 [d4 [H1 [H2 [H3 [H4 [Hstart _]]]]]]]]].
  exists d1, d2, d3, d4. repeat (split; [ assumption | ]).
  unfold matched_text. rewrite Hstart at 1. rewrite consumed_app. reflexivity.
Qed.

Lemma search_ip_pattern_finds_dotted_quads_witness :
  let s := list_ascii_of_string "from 10.0.0.256, port 22" in
  let start := list_ascii_of_string "10.0.0.256, port 22" in
  let st := mkState (list_ascii_of_string ", port 22")
                    [(1, ["0"; "."]); (1, ["0"; "."]); (1, ["1"; "0"; "."])] in
  search ip_regex s false = Some (start, st) /\
  exists d1 d2 d3 d4,
    digit_run d1 = true /\ digit_run d2 = true /\
    digit_run d3 = true /\ digit_run d4 = true /\
    matched_text start st = string_of_list_ascii (dotted d1 d2 d3 d4).
Proof.
  intros s start st. split.
  - reflexivity.
  - apply (search_ip_pattern_finds_dotted_quads s false start st).
    reflexivity.
Defined.

(** *** Texts without a digit, and texts with one address *)

Lemma match_at_needs_digit (s : list ascii) (ma : bool) :
  starts_with_digit s = false -> match_at ip_regex s ma = None.
Proof.
  intro Hs. destruct (match_at ip_regex s ma) as [st | ] eqn:E;
    [ | reflexivity ].
  apply match_at_ip_inv in E as [d1 [d2 [d3 [d4 [H1 [_ [_ [_ [Hstart _]]]]]]]]].
  rewrite dotted_app in Hstart.
  apply digit_run_inv in H1
    as [[a [-> Ha]] | [[a [b [-> [Ha _]]]] | [a [b [c [-> [Ha _]]]]]]];
    subst s; simpl in Hs; congruence.
Qed.

Lemma digit_free_starts (s : list ascii) :
  digit_free s = true -> starts_with_digit s = false.
Proof.
  destruct s as [ | c s]; simpl; [ reflexivity | ].
  intro H. apply andb_prop in H as [H _].
  destruct (is_digit c); [ discriminate | reflexivity ].
Qed.

Lemma search_digit_free (s : list ascii) :
  digit_free s = true -> forall ma, search ip_regex s ma = None.
Proof.
  induction s as [ | c s IH]; intros Hs ma; rewrite search_unfold;
    rewrite (match_at_needs_digit _ _ (digit_free_starts _ Hs)).
  - reflexivity.
  - simpl in Hs. apply andb_prop in Hs as [_ Hs]. apply IH. exact Hs.
Qed.

Lemma search_skips_digit_free (before s : list ascii) :
  digit_free before = true ->
  search ip_regex (before ++ s) false = search ip_regex s false.
Proof.
  induction before as [ | c before IH]; intro Hb; [ reflexivity | ].
  simpl in Hb. apply andb_prop in Hb as [Hc Hb].
  simpl app. rewrite search_unfold.
  rewrite match_at_needs_digit.
  - apply IH. exact Hb.
  - simpl. destruct (is_digit c); [ discriminate | reflexivity ].
Qed.

Lemma match_at_dotted_exact (d1 d2 d3 d4 tl : list ascii) :
  digit_run d1 = true -> digit_run d2 = true ->
  digit_run d3 = true -> digit_run d4 = true ->
  starts_with_digit tl = false ->
  match_at ip_regex (dotted d1 d2 d3 d4 ++ tl) false
  = Some (mkState tl [(1, d3 ++ ["."]); (1, d2 ++ ["."]); (1, d1 ++ ["."])]).
Proof.
  intros H1 H2 H3 H4 Htl.
  unfold match_at, ip_regex. simpl andb.
  rewrite exec_Seq, exec_Repeat_3_3, dotted_app.
  apply exec_octet_group; [ exact H1 | ].
  apply exec_octet_group; [ exact H2 | ].
  apply exec_octet_group; [ exact H3 | ].
  apply exec_digit_run; [ exact H4 | exact Htl | reflexivity ].
Qed.

(** X5. A text without any digit, the empty text included, gives the empty
    list. *)
Theorem findall_ip_pattern_no_digit (text : string) :
  digit_free (list_ascii_of_string text) = true ->
  findall ip_pattern text = Some [].
Proof.
  intro H. unfold findall. rewrite compile_ip_pattern.
  unfold findall_compiled.
  replace (2 * length (list_ascii_of_string text) + 2)
    with (S (S (2 * length (list_ascii_of_string text)))) by lia.
  simpl findall_loop. rewrite (search_digit_free _ H). reflexivity.
Qed.

Lemma findall_ip_pattern_no_digit_witness :
  digit_free (list_ascii_of_string "User logged out") = true /\
  findall ip_pattern "User logged out" = Some [].
Proof.
  split; [ reflexivity | ].
  apply (findall_ip_pattern_no_digit "User logged out"). reflexivity.
Defined.

(** X6. A text with one dotted quad among text without digits gives a list
    of one element, the third run of the quad followed by a dot. *)
Theorem findall_ip_pattern_one_address
        (before after d1 d2 d3 d4 : list ascii) :
  digit_free before = true -> digit_free after = true ->
  digit_run d1 = true -> digit_run d2 = true ->
  digit_run d3 = true -> digit_run d4 = true ->
  findall ip_pattern
          (string_of_list_ascii (before ++ dotted d1 d2 d3 d4 ++ after))
  = Some [Str (string_of_list_ascii (d3 ++ ["."]))].
Proof.
  intros Hb Ha H1 H2 H3 H4.
  unfold findall. rewrite compile_ip_pattern.
  unfold findall_compiled. rewrite list_ascii_of_string_of_list_ascii.
  set (s := before ++ dotted d1 d2 d3 d4 ++ after).
  replace (2 * length s + 2) with (S (S (2 * length s))) by lia.
  subst s. simpl findall_loop.
  rewrite (search_skips_digit_free _ _ Hb), search_unfold.
  rewrite (match_at_dotted_exact d1 d2 d3 d4 after H1 H2 H3 H4
             (digit_free_starts _ Ha)).
  simpl rest. rewrite (search_digit_free _ Ha). reflexivity.
Qed.

Lemma findall_ip_pattern_one_address_witness :
  findall ip_pattern "User logged in from 192.168.1.10"
  = Some [Str "1."].
Proof.
  exact (findall_ip_pattern_one_address
           (list_ascii_of_string "User logged in from ") []
           (list_ascii_of_string "192") (list_ascii_of_string "168")
           (list_ascii_of_string "1") (list_ascii_of_string "10")
           eq_refl eq_refl eq_refl eq_refl eq_refl eq_refl).
Defined.

(** X10. A text that holds a dotted quad of digit runs, wherever it
    stands, never gives the empty list. *)
Theorem findall_ip_pattern_finds_something
        (before after d1 d2 d3 d4 : list ascii) :
  digit_run d1 = true -> digit_run d2 = true ->
  digit_run d3 = true -> digit_run d4 = true ->
  exists i items,
    findall ip_pattern
            (string_of_list_ascii (before ++ dotted d1 d2 d3 d4 ++ after))
    = Some (i :: items).
Proof.
  intros H1 H2 H3 H4.
  set (text := string_of_list_ascii (before ++ dotted d1 d2 d3 d4 ++ after)).
  destruct (findall_ip_pattern_returns text) as [items Hf].
  destruct items as [ | i items]; [ exfalso | exists i, items; exact Hf ].
  unfold findall in Hf. rewrite compile_ip_pattern in Hf.
  unfold findall_compiled, text in Hf.
  rewrite list_ascii_of_string_of_list_ascii in Hf.
  set (s := before ++ dotted d1 d2 d3 d4 ++ after) in Hf.
  replace (2 * length s + 2) with (S (S (2 * length s))) in Hf by lia.
  simpl findall_loop in Hf.
  destruct (match_at_dotted d1 d2 d3 d4 after H1 H2 H3 H4)
    as [st [extra [Hm _]]].
  pose proof (search_finds ip_regex _ st before Hm) as Hs.
  fold s in Hs.
  destruct (search ip_regex s false) as [[start st'] | ];
    [ | apply Hs; reflexivity ].
  match type of Hf with
  | match ?e with _ => _ end = _ => destruct e; discriminate
  end.
Qed.

Lemma findall_ip_pattern_finds_something_witness :
  exists i items,
    findall ip_pattern "addresses 10.1.2.3 and 10.1.2.4" = Some (i :: items).
Proof.
  exact (findall_ip_pattern_finds_something
           (list_ascii_of_string "addresses ")
           (list_ascii_of_string " and 10.1.2.4")
           (list_ascii_of_string "10") (list_ascii_of_string "1")
           (list_ascii_of_string "2") (list_ascii_of_string "3")
           eq_refl eq_refl eq_refl eq_refl).
Defined.

(** *** The size and the shape of the list *)

Lemma digit_run_length (ds : list ascii) :
  digit_run ds = true -> 1 <= length ds <= 3.
Proof.
  unfold digit_run. intro H.
  apply andb_prop in H as [H H3]. apply andb_prop in H as [_ H1].
  apply Nat.leb_le in H1, H3. lia.
Qed.

Lemma extraction_length (s : list ascii) (items : list item) :
  extraction s items -> 7 * length items <= length s.
Proof.
  induction 1 as [ s Hno
                 | gap d1 d2 d3 d4 s items H1 H2 H3 H4 Hg Hleft _ IH ].
  - simpl. lia.
  - apply digit_run_length in H1, H2, H3, H4.
    unfold dotted. repeat (rewrite length_app; simpl length). lia.
Qed.

Lemma length_list_ascii_of_string (s : string) :
  length (list_ascii_of_string s) = String.length s.
Proof. induction s as [ | c s IH]; simpl; [ reflexivity | rewrite IH; reflexivity ]. Qed.

(** X7. Each element of the list stands for at least seven characters of
    the text that no other element shares: the list has at most a seventh
    of the length of the text. *)
Theorem findall_ip_pattern_length (text : string) (items : list item) :
  findall ip_pattern text = Some items ->
  7 * length items <= String.length text.
Proof.
  intro H. rewrite <- length_list_ascii_of_string.
  apply extraction_length. apply findall_ip_pattern_sound. exact H.
Qed.

Lemma findall_ip_pattern_length_witness :
  findall ip_pattern log_data = Some [Str "1."; Str "113."] /\
  7 * length [Str "1."; Str "113."] <= String.length log_data.
Proof.
  split; [ vm_compute; reflexivity | ].
  apply (findall_ip_pattern_length log_data). vm_compute. reflexivity.
Defined.

Lemma extraction_items (s : list ascii) (items : list item) :
  extraction s items ->
  exists runs,
    Forall (fun ds => digit_run ds = true) runs /\
    items = map (fun ds => Str (string_of_list_ascii (ds ++ ["."]))) runs.
Proof.
  induction 1 as [ s Hno
                 | gap d1 d2 d3 d4 s items H1 H2 H3 H4 Hg Hleft _ IH ].
  - exists []. split; [ constructor | reflexivity ].
  - destruct IH as [runs [Hr ->]].
    exists (d3 :: runs). split; [ constructor; assumption | reflexivity ].
Qed.

(** X8. Whatever the text, no element of the list is an address: each is a
    string of one to three digits and a final dot. *)
Theorem findall_ip_pattern_items (text : string) (items : list item)
        (i : item) :
  findall ip_pattern text = Some items ->
  In i items ->
  exists ds, digit_run ds = true /\
             i = Str (string_of_list_ascii (ds ++ ["."])).
Proof.
  intros H Hin. apply findall_ip_pattern_sound in H.
  apply extraction_items in H as [runs [Hr ->]].
  apply in_map_iff in Hin as [ds [<- Hds]].
  exists ds. split; [ | reflexivity ].
  rewrite Forall_forall in Hr. apply Hr. exact Hds.
Qed.

Lemma findall_ip_pattern_items_witness :
  findall ip_pattern log_data = Some [Str "1."; Str "113."] /\
  In (Str "113.") [Str "1."; Str "113."] /\
  exists ds, digit_run ds = true /\
             Str "113." = Str (string_of_list_ascii (ds ++ ["."])).
Proof.
  split; [ vm_compute; reflexivity | split; [ right; left; reflexivity | ] ].
  apply (findall_ip_pattern_items log_data [Str "1."; Str "113."] (Str "113.")).
  - vm_compute. reflexivity.
  - right; left; reflexivity.
Defined.

End ExtractionMore.

(* ================================================================= *)
(** ** The line the extraction script prints *)

Section ExtractionPrint.

Local Open Scope list_scope.
Local Open Scope char_scope.

Import Re.

Example repr_line_break : Py.repr_str nl = "'\n'"%string.
Proof. vm_compute. reflexivity. Qed.

Example repr_pair :
  Py.repr_list [Tuple ["192"; "168"]%string] = "[('192', '168')]"%string.
Proof. vm_compute. reflexivity. Qed.

Example extract_ips_main_prints :
  stdout (Script.exec extract_ips_main all_up)
  = ["Extracted IPs: ['1.', '113.']"%string].
Proof. vm_compute. reflexivity. Qed.

Lemma digit_is_plain (c : ascii) : is_digit c = true -> plain c.
Proof.
  destruct c as [b0 b1 b2 b3 b4 b5 b6 b7].
  destruct b0, b1, b2, b3, b4, b5, b6, b7; intro H;
    try (vm_compute in H; discriminate H);
    split; vm_compute; reflexivity.
Qed.

Lemma dot_is_plain : plain ".".
Proof. split; vm_compute; reflexivity. Qed.

Lemma plain_no_quote (l : list ascii) :
  Forall plain l -> existsb (Ascii.eqb Py.single_quote) l = false.
Proof.
  induction 1 as [ | c l [Hq _] _ IH]; cbn [existsb]; [ reflexivity | ].
  rewrite Hq, IH. reflexivity.
Qed.

Lemma plain_no_escape (l : list ascii) :
  Forall plain l -> flat_map (Py.escape Py.single_quote) l = l.
Proof.
  induction 1 as [ | c l [_ He] _ IH]; cbn [flat_map]; [ reflexivity | ].
  rewrite He, IH. reflexivity.
Qed.

Lemma string_of_list_ascii_app (a b : list ascii) :
  string_of_list_ascii (a ++ b)
  = (string_of_list_ascii a ++ string_of_list_ascii b)%string.
Proof. induction a as [ | c a IH]; simpl; [ reflexivity | rewrite IH; reflexivity ]. Qed.

Lemma repr_str_plain (l : list ascii) :
  Forall plain l ->
  Py.repr_str (string_of_list_ascii l)
  = ("'" ++ string_of_list_ascii l ++ "'")%string.
Proof.
  intro H. unfold Py.repr_str. cbv zeta.
  rewrite list_ascii_of_string_of_list_ascii.
  rewrite (plain_no_quote l H). cbn [andb].
  rewrite (plain_no_escape l H).
  cbn [string_of_list_ascii]. rewrite string_of_list_ascii_app. reflexivity.
Qed.

Lemma digit_run_plain (ds : list ascii) :
  digit_run ds = true -> Forall plain (ds ++ ["."]).
Proof.
  unfold digit_run. intro H.
  apply andb_prop in H as [H _]. apply andb_prop in H as [H _].
  apply Forall_app. split.
  - apply Forall_forall. intros c Hc.
    apply digit_is_plain. rewrite forallb_forall in H. apply H. exact Hc.
  - constructor; [ exact dot_is_plain | constructor ].
Qed.

Lemma string_append_assoc (a b c : string) :
  ((a ++ b) ++ c = a ++ (b ++ c))%string.
Proof. induction a as [ | x a IH]; simpl; [ reflexivity | rewrite IH; reflexivity ]. Qed.

Lemma repr_item_run (ds : list ascii) :
  digit_run ds = true ->
  Py.repr_item (Str (string_of_list_ascii (ds ++ ["."]))) = shown ds.
Proof.
  intro H. unfold Py.repr_item, shown.
  rewrite (repr_str_plain _ (digit_run_plain ds H)).
  rewrite string_of_list_ascii_app. simpl.
  rewrite string_append_assoc. reflexivity.
Qed.

(** X9. For every log text the script prints one line: the label
    "Extracted IPs:", a space, and the list in brackets, each element in
    single quotes with nothing escaped, and each element a run of one to
    three digits with a dot after it. *)
Theorem extract_ips_prints_runs (log : string) (w : World) :
  exists runs,
    Forall (fun ds => digit_run ds = true) runs /\
    findall ip_pattern log
      = Some (map (fun ds => Str (string_of_list_ascii (ds ++ ["."]))) runs) /\
    stdout (Script.exec (extract_ips log) w)
      = stdout w ++
        [("Extracted IPs: [" ++ Py.join (map shown runs) ++ "]")%string].
Proof.
  destruct (findall_ip_pattern_returns log) as [items Hf].
  pose proof (findall_ip_pattern_sound log items Hf) as He.
  apply extraction_items in He as [runs [Hr ->]].
  exists runs. split; [ exact Hr | split; [ exact Hf | ] ].
  unfold extract_ips. rewrite Hf. unfold Script.exec, print. simpl.
  unfold Py.repr_list. rewrite map_map.
  rewrite (map_ext_in _ shown).
  - reflexivity.
  - intros ds Hds. apply repr_item_run.
    rewrite Forall_forall in Hr. apply Hr. exact Hds.
Qed.

End ExtractionPrint.
